(** * Liquid-Book market maker: pricing, sizing and order reconciliation

    A shallow embedding of [src/utils.js], [src/orderbook.js],
    the order methods of [src/exchange.js] and [src/strategy.js].

    Numbers.  A JavaScript number is modelled as an exact rational [Q]:
    the development reasons about the arithmetic the code writes down, not
    about IEEE-754 rounding, NaN or Infinity.  Results of arithmetic are
    compared with [==] (equality of rationals); values that the code passes
    through untouched are compared with [=].  [undefined] and [null] are
    [None].  Trade timestamps are integer milliseconds ([Z]). *)

From Stdlib Require Import QArith Qround ZArith List String Ascii Bool Lia Lqa.
Import ListNotations.

Local Open Scope Q_scope.

(** ** JavaScript's [Math] on exact rationals *)

Module JsMath.

(** [Math.floor] *)
Definition floor (x : Q) : Z := Qfloor x.

(** [Math.round]: the nearest integer, a tie going towards +infinity. *)
Definition round (x : Q) : Z := Qfloor (x + (1 # 2)).

(** [Math.max], [Math.min], [Math.abs] *)
Definition max (x y : Q) : Q := if Qle_bool y x then x else y.
Definition min (x y : Q) : Q := if Qle_bool x y then x else y.
Definition abs (x : Q) : Q := if Qle_bool 0 x then x else - x.

(** [a ?? d] *)
Definition nullish {A : Type} (a : option A) (d : A) : A :=
  match a with Some v => v | None => d end.

End JsMath.

(** [x < y], [x > y], [x >= y] of the source, as booleans. *)
Definition Qlt_bool (x y : Q) : bool := negb (Qle_bool y x).

(** ** src/utils.js *)

(** [adjustPriceToTickSize(price, tickSize)] *)
Definition adjustPriceToTickSize (price : Q) (tickSize : option Q) : Q :=
  match tickSize with
  | None => price
  | Some t =>
      if Qle_bool t 0 then price
      else inject_Z (JsMath.round (price / t)) * t
  end.

(** [adjustAmountToStepSize(amount, stepSize)] *)
Definition adjustAmountToStepSize (amount : Q) (stepSize : option Q) : Q :=
  match stepSize with
  | None => amount
  | Some s =>
      if Qle_bool s 0 then amount
      else inject_Z (JsMath.floor (amount / s)) * s
  end.

(** ** src/orderbook.js *)

(** One book level [[price, volume]]; a side is an array of levels. *)
Definition Level : Type := (Q * Q)%type.
Definition OrderBookSide : Type := list Level.

Record OrderBook : Type := mkOrderBook {
  bids : option OrderBookSide;
  asks : option OrderBookSide
}.

Module OrderBookAnalyzer.

(** The [for] loop of [calculateVwap]: [n] iterations remain, over the
    entries not yet visited; the accumulators are [weightedSum] and
    [totalVolume].  Entries are pairs of numbers, so of the loop's guard
    only [volume <= 0] can fire. *)
Fixpoint vwapLoop (n : nat) (orders : OrderBookSide) (weightedSum totalVolume : Q)
  : Q * Q :=
  match n, orders with
  | S n', (price, volume) :: rest =>
      if Qle_bool volume 0 then vwapLoop n' rest weightedSum totalVolume
      else vwapLoop n' rest (weightedSum + price * volume) (totalVolume + volume)
  | _, _ => (weightedSum, totalVolume)
  end.

(** [calculateVwap(orders, levels)]; [levels] is a count of levels. *)
Definition calculateVwap (orders : option OrderBookSide) (levels : Z) : option Q :=
  match orders with
  | None => None
  | Some os =>
      if (Nat.eqb (List.length os) 0 || (levels <=? 0)%Z)%bool then None
      else
        let depth := Z.min (Z.of_nat (List.length os)) levels in
        let '(weightedSum, totalVolume) := vwapLoop (Z.to_nat depth) os 0 0 in
        if Qeq_bool totalVolume 0 then None
        else Some (weightedSum / totalVolume)
  end.

(** [orderBook.bids?.length > 0] *)
Definition nonEmpty (side : option OrderBookSide) : bool :=
  match side with
  | Some (_ :: _) => true
  | _ => false
  end.

(** [side[0][0]] of a non-empty side *)
Definition bestPrice (side : option OrderBookSide) : option Q :=
  match side with
  | Some ((p, _) :: _) => Some p
  | _ => None
  end.

(** [calculateDepthMidPrice(orderBook, levels)] *)
Definition calculateDepthMidPrice (orderBook : option OrderBook) (levels : Z)
  : option Q :=
  match orderBook with
  | None => None
  | Some ob =>
      match calculateVwap (bids ob) levels, calculateVwap (asks ob) levels with
      | Some bidVwap, Some askVwap => Some ((bidVwap + askVwap) / 2)
      | _, _ =>
          if (nonEmpty (bids ob) && nonEmpty (asks ob))%bool then
            match bestPrice (bids ob), bestPrice (asks ob) with
            | Some bestBid, Some bestAsk => Some ((bestBid + bestAsk) / 2)
            | _, _ => None
            end
          else None
      end
  end.

(** The [for ... of] loop of [getVolumeNearPrice]. *)
Fixpoint volumeLoop (orders : OrderBookSide) (lowerBound upperBound cumulativeVolume : Q)
  : Q :=
  match orders with
  | [] => cumulativeVolume
  | (price, volume) :: rest =>
      if (Qle_bool lowerBound price && Qle_bool price upperBound)%bool
      then volumeLoop rest lowerBound upperBound (cumulativeVolume + volume)
      else volumeLoop rest lowerBound upperBound cumulativeVolume
  end.

(** [getVolumeNearPrice(orders, targetPrice, priceRange)] *)
Definition getVolumeNearPrice (orders : option OrderBookSide) (targetPrice priceRange : Q)
  : Q :=
  match orders with
  | None => 0
  | Some os =>
      if (Nat.eqb (List.length os) 0 || Qlt_bool priceRange 0)%bool then 0
      else volumeLoop os (targetPrice - priceRange) (targetPrice + priceRange) 0
  end.

(** [getVolumeNearPriceTicks(orders, targetPrice, rangeTicks, tickSize)] *)
Definition getVolumeNearPriceTicks (orders : option OrderBookSide)
    (targetPrice rangeTicks : Q) (tickSize : option Q) : Q :=
  match tickSize with
  | None => 0
  | Some t =>
      if Qle_bool t 0 then 0
      else getVolumeNearPrice orders targetPrice (rangeTicks * t)
  end.

End OrderBookAnalyzer.

(** ** Errors, as the handlers of the source tell them apart

    The classes are those of the ccxt library that the source names in an
    [instanceof] test, with ccxt's inheritance between them; [PlainError]
    stands for every other thrown value ([Error], [TypeError], ...). *)

Inductive ErrorClass : Type :=
| PlainError
| ExchangeError
| AuthenticationError
| InvalidOrder
| OrderNotFound
| NotSupported
| NetworkError
| ExchangeNotAvailable
| RateLimitExceeded.

Record JsError : Type := mkError {
  errClass : ErrorClass;
  message : string
}.

(** [error instanceof ccxt.C] *)
Definition instanceOf (error : JsError) (c : ErrorClass) : bool :=
  match c, errClass error with
  | PlainError, _ => true
  | ExchangeError, (ExchangeError | AuthenticationError | InvalidOrder
                    | OrderNotFound | NotSupported) => true
  | AuthenticationError, AuthenticationError => true
  | InvalidOrder, (InvalidOrder | OrderNotFound) => true
  | OrderNotFound, OrderNotFound => true
  | NotSupported, NotSupported => true
  | NetworkError, (NetworkError | ExchangeNotAvailable | RateLimitExceeded) => true
  | ExchangeNotAvailable, ExchangeNotAvailable => true
  | RateLimitExceeded, RateLimitExceeded => true
  | _, _ => false
  end.

(** [s.includes(sub)] *)
Fixpoint includes (s sub : string) : bool :=
  if String.prefix sub s then true
  else match s with
       | EmptyString => false
       | String _ rest => includes rest sub
       end.

(** ** The venue and the calls made to it *)

Inductive Side : Type := buy | sell.

Record Trade : Type := mkTrade {
  trade_timestamp : option Z;
  trade_amount : Q
}.

(** The order structure a placement returns; only its [id] is read. *)
Record Order : Type := mkOrder {
  order_id : option string
}.

(** A call that reaches the exchange. *)
Inductive Event : Type :=
| CallEditOrder (id : string) (side : Side) (amount price : Q)
| CallCancelOrder (id : string)
| CallCreateLimitOrder (side : Side) (amount price : Q)
| CallFetchMyTrades (since : option Z).

Inductive Result (A : Type) : Type :=
| Returned (a : A)
| Thrown (error : JsError).
Arguments Returned {A} a.
Arguments Thrown {A} error.

(** The exchange ([exchangeService.exchange]): whether it has [editOrder],
    and how it answers each call, as an arbitrary function of all the calls
    made so far (the one being answered is the last of the list). *)
Record Venue : Type := mkVenue {
  has_editOrder : bool;
  exchange_editOrder : list Event -> Result (option Order);
  exchange_cancelOrder : list Event -> Result unit;
  exchange_createLimitOrder : list Event -> Result (option Order);
  exchange_fetchMyTrades : list Event -> Result (option (list Trade))
}.

(** ** src/strategy.js: configuration and state *)

(** [this.config] together with the precision fields the constructor reads
    from the market ([tickSize], [stepSize], [minAmount]).  A field the
    source reads through [??] is optional. *)
Record Config : Type := mkConfig {
  orderBookDepthLevels : Z;
  targetSpreadPct : Q;
  minSpread : option Q;
  maxSpread : option Q;
  baseAmount : Q;
  liquidityVolumeThreshold : Q;
  positionLimit : option Q;
  inventorySkewIntensity : Q;
  rangeTicksForLiquidity : option Q;
  minNotionalValue : option Q;
  tickSize : option Q;
  stepSize : option Q;
  minAmount : Q
}.

(** The mutable fields of [MarketMakerStrategy]. *)
Record Strategy : Type := mkStrategy {
  currentBuyOrderId : option string;
  currentSellOrderId : option string;
  totalTradedBaseVolume : Q;
  lastTradeTimestamp : option Z
}.

(** What one cycle fetched: the order book, the free quote balance and the
    position size ([currentPositionSize] before its default of 0). *)
Record Snapshot : Type := mkSnapshot {
  orderBook : option OrderBook;
  balance : Q;
  position : option Q
}.

(** The strategy's fields and the calls made to the exchange so far. *)
Record World : Type := mkWorld {
  strategy : Strategy;
  calls : list Event
}.

(** [if (orderId)]: an id is tracked when it is neither [null] nor empty. *)
Definition tracked (orderId : option string) : option string :=
  match orderId with
  | Some EmptyString => None
  | Some s => Some s
  | None => None
  end.

(** ** A state-and-exception monad for the asynchronous methods *)

Definition M (A : Type) : Type := World -> Result A * World.

Definition ret {A : Type} (a : A) : M A := fun w => (Returned a, w).

Definition throw {A : Type} (error : JsError) : M A := fun w => (Thrown error, w).

Definition bind {A B : Type} (m : M A) (k : A -> M B) : M B :=
  fun w =>
    match m w with
    | (Returned a, w') => k a w'
    | (Thrown error, w') => (Thrown error, w')
    end.

(** [try { m } catch (error) { handler }] *)
Definition tryCatch {A : Type} (m : M A) (handler : JsError -> M A) : M A :=
  fun w =>
    match m w with
    | (Returned a, w') => (Returned a, w')
    | (Thrown error, w') => handler error w'
    end.

(** [try { m } finally { cleanup }] *)
Definition tryFinally {A : Type} (m : M A) (cleanup : M unit) : M A :=
  fun w =>
    match m w with
    | (r, w') =>
        match cleanup w' with
        | (Returned _, w'') => (r, w'')
        | (Thrown error, w'') => (Thrown error, w'')
        end
    end.

Declare Scope js_scope.
Delimit Scope js_scope with js.
Notation "x <- m ;; k" := (bind m (fun x => k))
  (at level 61, m at next level, right associativity) : js_scope.
Notation "m ;; k" := (bind m (fun _ => k))
  (at level 61, right associativity) : js_scope.

(** Read and write the strategy's fields. *)
Definition gets {A : Type} (f : Strategy -> A) : M A :=
  fun w => (Returned (f (strategy w)), w).

Definition modify (f : Strategy -> Strategy) : M unit :=
  fun w => (Returned tt, mkWorld (f (strategy w)) (calls w)).

(** Issue a call to the exchange and receive its answer. *)
Definition call {A : Type} (ev : Event) (answer : list Event -> Result A) : M A :=
  fun w =>
    let history := (calls w ++ [ev])%list in
    (answer history, mkWorld (strategy w) history).

(** [side === 'buy' ? this.currentBuyOrderId : this.currentSellOrderId] *)
Definition orderIdOf (side : Side) (s : Strategy) : option string :=
  match side with
  | buy => currentBuyOrderId s
  | sell => currentSellOrderId s
  end.

(** [if (side === 'buy') this.currentBuyOrderId = v; else this.currentSellOrderId = v;] *)
Definition setOrderId (side : Side) (v : option string) : M unit :=
  modify (fun s =>
    match side with
    | buy => mkStrategy v (currentSellOrderId s)
               (totalTradedBaseVolume s) (lastTradeTimestamp s)
    | sell => mkStrategy (currentBuyOrderId s) v
               (totalTradedBaseVolume s) (lastTradeTimestamp s)
    end).

Local Open Scope js_scope.

Section MarketMaker.

Variable cfg : Config.
Variable venue : Venue.

(** ** src/exchange.js: the order methods of [ExchangeService]

    The strategy's constructor refuses an exchange service whose market
    is not loaded, so the [Market not initialized] guard of each method
    never fires and is left out. *)
(** [createLimitBuyOrder] / [createLimitSellOrder]: the success log reads
    [order.id], which throws on a missing order; errors are re-thrown. *)
Definition createLimitOrder (side : Side) (amount price : Q) : M Order :=
  order <- call (CallCreateLimitOrder side amount price)
                (exchange_createLimitOrder venue) ;;
  match order with
  | Some o => ret o
  | None => throw (mkError PlainError "Cannot read properties of undefined")
  end.

(** [cancelOrder(id)]: [true] when the exchange cancelled the order or
    does not know it, [false] on any other error. *)
Definition cancelOrder (id : string) : M bool :=
  tryCatch
    (call (CallCancelOrder id) (exchange_cancelOrder venue) ;; ret true)
    (fun error =>
       if (instanceOf error OrderNotFound
           || (instanceOf error ExchangeError
               && (includes (message error) "Unknown order"
                   || includes (message error) "Order does not exist")))%bool
       then ret true
       else ret false).

(** [editOrder(id, 'limit', side, amount, price)]; as for a placement, the
    success log reads [order.id]. *)
Definition editOrder (id : string) (side : Side) (amount price : Q) : M Order :=
  if negb (has_editOrder venue)
  then throw (mkError NotSupported "editOrder not supported")
  else
    order <- call (CallEditOrder id side amount price) (exchange_editOrder venue) ;;
    match order with
    | Some o => ret o
    | None => throw (mkError PlainError "Cannot read properties of undefined")
    end.

(** ** src/strategy.js: [updateTradedVolume] *)

(** The [for ... of] loop over the fetched trades; [watermark] is
    [this.lastTradeTimestamp ?? 0]. *)
Fixpoint tradesLoop (watermark : Z) (trades : list Trade)
    (newVolume : Q) (latestTimestamp : Z) : Q * Z :=
  match trades with
  | [] => (newVolume, latestTimestamp)
  | trade :: rest =>
      match trade_timestamp trade with
      | Some ts =>
          if (watermark <? ts)%Z
          then tradesLoop watermark rest (newVolume + trade_amount trade)
                          (Z.max latestTimestamp ts)
          else tradesLoop watermark rest newVolume latestTimestamp
      | None => tradesLoop watermark rest newVolume latestTimestamp
      end
  end.

Definition updateTradedVolume : M unit :=
  tryCatch
    (since <- gets lastTradeTimestamp ;;
     trades <- call (CallFetchMyTrades since) (exchange_fetchMyTrades venue) ;;
     match trades with
     | Some ((_ :: _) as ts) =>
         let watermark := JsMath.nullish since 0%Z in
         let '(newVolume, latestTimestamp) := tradesLoop watermark ts 0 watermark in
         if Qlt_bool 0 newVolume
         then modify (fun s =>
                mkStrategy (currentBuyOrderId s) (currentSellOrderId s)
                  (totalTradedBaseVolume s + newVolume)
                  (Some (latestTimestamp + 1)%Z))
         else ret tt
     | _ => ret tt
     end)
    (fun _ => ret tt).

(** ** src/strategy.js: [manageOrder] *)

(** The last statement of [manageOrder]: place a new order if one is
    needed and allowed. *)
Definition placeIfNeeded (side : Side) (placeNewOrder shouldPlace : bool)
    (targetAmount targetPrice : Q) : M unit :=
  if (placeNewOrder && shouldPlace && Qle_bool (minAmount cfg) targetAmount)%bool
  then
    tryCatch
      (newOrder <- createLimitOrder side targetAmount targetPrice ;;
       match tracked (order_id newOrder) with
       | Some newId => setOrderId side (Some newId)
       | None => setOrderId side None
       end)
      (fun _ => setOrderId side None)
  else if placeNewOrder then setOrderId side None
  else ret tt.

(** [try { await cancelOrder(orderId) } catch { log } finally { clear id }] *)
Definition cancelAndClear (side : Side) (orderId : string) : M unit :=
  tryFinally
    (tryCatch (cancelOrder orderId ;; ret tt) (fun _ => ret tt))
    (setOrderId side None).

(** The [if (shouldPlace)] branch for a tracked order: try to edit it;
    the value is the flag [placeNewOrder]. *)
Definition editOrReplace (side : Side) (orderId : string)
    (targetAmount targetPrice : Q) : M bool :=
  tryCatch
    (if has_editOrder venue
     then editOrder orderId side targetAmount targetPrice ;; ret false
     else cancelOrder orderId ;; setOrderId side None ;; ret true)
    (fun error =>
       if (instanceOf error ExchangeError && includes (message error) "-5027")%bool
       then ret false
       else if (instanceOf error OrderNotFound
                || includes (message error) "Unknown order")%bool
       then setOrderId side None ;; ret true
       else cancelAndClear side orderId ;; ret true).

Definition manageOrder (side : Side) (shouldPlace : bool)
    (targetAmount targetPrice : Q) : M unit :=
  currentId <- gets (orderIdOf side) ;;
  match tracked currentId with
  | Some orderId =>
      let belowMin := Qlt_bool targetAmount (minAmount cfg) in
      let shouldPlace := if belowMin then false else shouldPlace in
      let targetAmount := if belowMin then 0 else targetAmount in
      placeNewOrder <-
        (if shouldPlace
         then editOrReplace side orderId targetAmount targetPrice
         else cancelAndClear side orderId ;; ret false) ;;
      placeIfNeeded side placeNewOrder shouldPlace targetAmount targetPrice
  | None =>
      placeIfNeeded side true shouldPlace targetAmount targetPrice
  end.

(** ** src/strategy.js: [cancelStaleOrdersIfNeeded] *)

(** One of the two [if (id) { ... }] blocks: the id is cleared first, then
    the cancel is issued with its [.catch] attached. *)
Definition cancelStale (side : Side) (id : option string) : M unit :=
  match tracked id with
  | Some staleId =>
      setOrderId side None ;;
      tryCatch (cancelOrder staleId ;; ret tt) (fun _ => ret tt)
  | None => ret tt
  end.

Definition cancelStaleOrdersIfNeeded : M unit :=
  buyId <- gets currentBuyOrderId ;;
  sellId <- gets currentSellOrderId ;;
  cancelStale buy buyId ;;
  cancelStale sell sellId.

(** ** src/strategy.js: [runCycle]

    The planning part of a cycle reads the fetched data and the
    configuration only; every one of its early exits does the same thing
    (stale-order cleanup, then [return]).  It is therefore written as pure
    functions, [None] standing for such an exit. *)

(** [targetSpreadAbs], clamped between [minSpread ?? 0] and
    [maxSpread ?? Infinity]. *)
Definition targetSpread (depthMidPrice : Q) : Q :=
  let targetSpreadAbs := depthMidPrice * targetSpreadPct cfg in
  JsMath.max (JsMath.nullish (minSpread cfg) 0)
    match maxSpread cfg with
    | Some m => JsMath.min m targetSpreadAbs
    | None => targetSpreadAbs
    end.

(** [inventoryRatio], clamped to [-1, 1]. *)
Definition inventoryRatio (currentPositionSize positionLimit : Q) : Q :=
  JsMath.max (-1) (JsMath.min 1 (currentPositionSize / positionLimit)).

(** [skewAdjustment] of a cycle in which the skew applies. *)
Definition skewAdjustment (targetSpreadAbs currentPositionSize positionLimit : Q) : Q :=
  targetSpreadAbs * inventoryRatio currentPositionSize positionLimit
  * inventorySkewIntensity cfg.

(** The inventory-skew block: the target prices before tick alignment. *)
Definition skewedPrices (initialTargetBuyPrice initialTargetSellPrice
    targetSpreadAbs currentPositionSize : Q) : Q * Q :=
  let positionLimit := JsMath.nullish (positionLimit cfg) 0 in
  if (Qlt_bool 0 (inventorySkewIntensity cfg) && Qlt_bool 0 positionLimit)%bool
  then
    let skew := skewAdjustment targetSpreadAbs currentPositionSize positionLimit in
    (initialTargetBuyPrice - skew, initialTargetSellPrice - skew)
  else (initialTargetBuyPrice, initialTargetSellPrice).

(** Tick alignment and the guard against [buy >= sell]; [None] when the
    quotes stay crossed. *)
Definition finalPrices (targetBuyPrice targetSellPrice : Q) : option (Q * Q) :=
  let targetBuyPrice := adjustPriceToTickSize targetBuyPrice (tickSize cfg) in
  let targetSellPrice := adjustPriceToTickSize targetSellPrice (tickSize cfg) in
  match tickSize cfg with
  | Some tick =>
      if (Qle_bool targetSellPrice targetBuyPrice && negb (Qeq_bool tick 0))%bool
      then
        let targetBuyPrice :=
          adjustPriceToTickSize (targetBuyPrice - tick) (tickSize cfg) in
        if Qle_bool targetSellPrice targetBuyPrice
        then
          let targetSellPrice :=
            adjustPriceToTickSize (targetSellPrice + tick) (tickSize cfg) in
          if Qle_bool targetSellPrice targetBuyPrice
          then None
          else Some (targetBuyPrice, targetSellPrice)
        else Some (targetBuyPrice, targetSellPrice)
      else Some (targetBuyPrice, targetSellPrice)
  | None => Some (targetBuyPrice, targetSellPrice)
  end.

(** The prices of a cycle, from the fetched data to the final prices. *)
Definition planPrices (snap : Snapshot) : option (Q * Q) :=
  match orderBook snap with
  | None => None
  | Some ob =>
      if (OrderBookAnalyzer.nonEmpty (bids ob)
          && OrderBookAnalyzer.nonEmpty (asks ob))%bool
      then
        match OrderBookAnalyzer.calculateDepthMidPrice (Some ob)
                (orderBookDepthLevels cfg) with
        | None => None
        | Some depthMidPrice =>
            let currentPositionSize := JsMath.nullish (position snap) 0 in
            let targetSpreadAbs := targetSpread depthMidPrice in
            let initialTargetBuyPrice := depthMidPrice - targetSpreadAbs / 2 in
            let initialTargetSellPrice := depthMidPrice + targetSpreadAbs / 2 in
            let '(targetBuyPrice, targetSellPrice) :=
              skewedPrices initialTargetBuyPrice initialTargetSellPrice
                targetSpreadAbs currentPositionSize in
            finalPrices targetBuyPrice targetSellPrice
        end
      else None
  end.

(** One side of the plan handed to [manageOrder]. *)
Record TargetQuote : Type := mkTargetQuote {
  shouldPlace : bool;
  amount : Q;
  price : Q
}.

(** [baseAmount * Math.min(1.0, volumeNear / liquidityVolumeThreshold)];
    the threshold is taken non-zero. *)
Definition liquidityAmount (volumeNear : Q) : Q :=
  baseAmount cfg * JsMath.min 1 (volumeNear / liquidityVolumeThreshold cfg).

(** The hard position limit: [(placeBuy, buyAmount, placeSell, sellAmount)]. *)
Definition positionGate (currentPositionSize buyAmount sellAmount : Q)
  : bool * Q * bool * Q :=
  let positionLimit := JsMath.nullish (positionLimit cfg) 0 in
  let absPositionSize := JsMath.abs currentPositionSize in
  if Qlt_bool 0 positionLimit then
    if (Qlt_bool 0 currentPositionSize && Qle_bool positionLimit absPositionSize)%bool
    then (false, buyAmount, true, JsMath.max sellAmount absPositionSize)
    else if (Qlt_bool currentPositionSize 0
             && Qle_bool positionLimit absPositionSize)%bool
    then (true, JsMath.max buyAmount absPositionSize, false, sellAmount)
    else (true, buyAmount, true, sellAmount)
  else (true, buyAmount, true, sellAmount).

(** The minimum-notional check of one side. *)
Definition notionalGate (place : bool) (amount price : Q) : bool * Q :=
  let MIN_NOTIONAL_VALUE := JsMath.nullish (minNotionalValue cfg) 10 in
  if (place && Qlt_bool 0 amount && Qlt_bool (amount * price) MIN_NOTIONAL_VALUE)%bool
  then (false, 0)
  else (place, amount).

(** The balance check of the buy side. *)
Definition balanceGate (balance : Q) (placeBuy : bool) (buyAmount targetBuyPrice : Q)
  : bool * Q :=
  let estimatedBuyCost := buyAmount * targetBuyPrice in
  if (placeBuy && Qlt_bool balance estimatedBuyCost && Qlt_bool 0 estimatedBuyCost)%bool
  then (false, 0)
  else (placeBuy, buyAmount).

(** The position check of the sell side. *)
Definition sellGate (currentPositionSize : Q) (placeSell : bool)
    (sellAmount targetSellPrice : Q) : bool * Q :=
  let MIN_NOTIONAL_VALUE := JsMath.nullish (minNotionalValue cfg) 10 in
  if (placeSell && Qlt_bool 0 sellAmount)%bool then
    if Qle_bool 0 currentPositionSize then
      let maxSellable :=
        currentPositionSize + JsMath.nullish (stepSize cfg) (1 # 100000000) in
      if Qlt_bool maxSellable sellAmount then
        let sellAmount :=
          adjustAmountToStepSize (JsMath.max 0 currentPositionSize) (stepSize cfg) in
        if (Qlt_bool sellAmount (minAmount cfg)
            || Qlt_bool (sellAmount * targetSellPrice) MIN_NOTIONAL_VALUE)%bool
        then (false, 0)
        else (placeSell, sellAmount)
      else (placeSell, sellAmount)
    else (placeSell, sellAmount)
  else (placeSell, sellAmount).

(** The whole plan of a cycle: the two target quotes, or [None]. *)
Definition planCycle (snap : Snapshot) : option (TargetQuote * TargetQuote) :=
  match planPrices snap, orderBook snap, tickSize cfg with
  | Some (targetBuyPrice, targetSellPrice), Some ob, Some _ =>
      let currentPositionSize := JsMath.nullish (position snap) 0 in
      let rangeTicks := JsMath.nullish (rangeTicksForLiquidity cfg) 30 in
      let volumeNearBuy :=
        OrderBookAnalyzer.getVolumeNearPriceTicks (bids ob) targetBuyPrice
          rangeTicks (tickSize cfg) in
      let volumeNearSell :=
        OrderBookAnalyzer.getVolumeNearPriceTicks (asks ob) targetSellPrice
          rangeTicks (tickSize cfg) in
      let '(placeBuy, buyAmount, placeSell, sellAmount) :=
        positionGate currentPositionSize
          (liquidityAmount volumeNearBuy) (liquidityAmount volumeNearSell) in
      let buyAmount := adjustAmountToStepSize buyAmount (stepSize cfg) in
      let sellAmount := adjustAmountToStepSize sellAmount (stepSize cfg) in
      let '(placeBuy, buyAmount) := notionalGate placeBuy buyAmount targetBuyPrice in
      let '(placeSell, sellAmount) :=
        notionalGate placeSell sellAmount targetSellPrice in
      let '(placeBuy, buyAmount) :=
        balanceGate (balance snap) placeBuy buyAmount targetBuyPrice in
      let '(placeSell, sellAmount) :=
        sellGate currentPositionSize placeSell sellAmount targetSellPrice in
      Some (mkTargetQuote placeBuy buyAmount targetBuyPrice,
            mkTargetQuote placeSell sellAmount targetSellPrice)
  | _, _, _ => None
  end.

(** The [try] block of [runCycle] once the four fetches have returned
    [snap].  The two reconciliations write different fields; they are run
    one after the other, and [Promise.allSettled] absorbs what either
    throws. *)
Definition cycleBody (snap : Snapshot) : M unit :=
  match planCycle snap with
  | None => cancelStaleOrdersIfNeeded
  | Some (buyQuote, sellQuote) =>
      tryCatch
        (manageOrder buy (shouldPlace buyQuote) (amount buyQuote) (price buyQuote))
        (fun _ => ret tt) ;;
      tryCatch
        (manageOrder sell (shouldPlace sellQuote) (amount sellQuote) (price sellQuote))
        (fun _ => ret tt) ;;
      updateTradedVolume
  end.

(** [runCycle]; [fetched] is the outcome of the [Promise.all] of the four
    fetches.  In the handler the waits are not modelled, and the
    rate-limit branch reads [this.exchange.rateLimit] on a strategy that
    has no [exchange] field, which throws before the cleanup. *)
Definition runCycle (fetched : Result Snapshot) : M unit :=
  tryCatch
    match fetched with
    | Returned snap => cycleBody snap
    | Thrown error => throw error
    end
    (fun error =>
       if instanceOf error AuthenticationError then throw error
       else if instanceOf error ExchangeNotAvailable then cancelStaleOrdersIfNeeded
       else if instanceOf error RateLimitExceeded
       then throw (mkError PlainError "Cannot read properties of undefined")
       else cancelStaleOrdersIfNeeded).

End MarketMaker.

(** ** Specification vocabulary

    Definitions used only to state properties of the code above. *)



Definition totalVolumeOf (l : list Level) : Q :=
  fold_right (fun lv acc => snd lv + acc) 0 l.






(** A valid book: bids descending, asks ascending, every size positive. *)
Fixpoint chain (rel : Q -> Q -> bool) (l : OrderBookSide) : bool :=
  match l with
  | a :: (b :: _) as rest => (rel (fst a) (fst b) && chain rel rest)%bool
  | _ => true
  end.

Definition descending (l : OrderBookSide) : bool :=
  chain (fun a b => Qle_bool b a) l.

Definition ascending (l : OrderBookSide) : bool :=
  chain (fun a b => Qle_bool a b) l.



(** The example book of the specification. *)
Definition exampleBook : OrderBook :=
  mkOrderBook (Some [(100, 5); (999 # 10, 5)])
              (Some [(1001 # 10, 5); (1002 # 10, 5)]).


(** A configuration with the skew parameters of the specification's
    example: [positionLimit = 1], [inventorySkewIntensity = 0.5]. *)
Definition exampleConfig : Config :=
  {| orderBookDepthLevels := 2;
     targetSpreadPct := 1 # 10;
     minSpread := Some 1;
     maxSpread := Some 50;
     baseAmount := 1 # 100;
     liquidityVolumeThreshold := 1 # 10;
     positionLimit := Some 1;
     inventorySkewIntensity := 1 # 2;
     rangeTicksForLiquidity := Some 30;
     minNotionalValue := Some 10;
     tickSize := Some (1 # 10);
     stepSize := Some (1 # 1000);
     minAmount := 1 # 1000 |}.

(** A configuration under which the example book is quoted at full size. *)
Definition quotingConfig : Config :=
  {| orderBookDepthLevels := 2;
     targetSpreadPct := 1 # 1000;
     minSpread := Some 1;
     maxSpread := Some 50;
     baseAmount := 1;
     liquidityVolumeThreshold := 1 # 10;
     positionLimit := Some 1;
     inventorySkewIntensity := 1 # 2;
     rangeTicksForLiquidity := None;
     minNotionalValue := None;
     tickSize := Some (1 # 10);
     stepSize := Some (1 # 1000);
     minAmount := 1 # 1000 |}.

(** An exchange without [editOrder] that accepts every other call. *)
Definition venueWithoutEdit : Venue :=
  {| has_editOrder := false;
     exchange_editOrder := fun _ => Returned (Some (mkOrder (Some "edited"%string)));
     exchange_cancelOrder := fun _ => Returned tt;
     exchange_createLimitOrder := fun _ => Returned (Some (mkOrder (Some "new-1"%string)));
     exchange_fetchMyTrades := fun _ => Returned (Some []) |}.

(** An exchange that rejects every edit, fails every cancel with a network
    error and every trade query, and accepts placements. *)
Definition venueRejectingEdit : Venue :=
  {| has_editOrder := true;
     exchange_editOrder := fun _ => Thrown (mkError ExchangeError "rejected");
     exchange_cancelOrder := fun _ => Thrown (mkError NetworkError "timeout");
     exchange_createLimitOrder := fun _ => Returned (Some (mkOrder (Some "new-2"%string)));
     exchange_fetchMyTrades := fun _ => Thrown (mkError NetworkError "timeout") |}.

(** An exchange reporting two trades, stamped 100 and 101. *)
Definition venueWithTrades : Venue :=
  {| has_editOrder := true;
     exchange_editOrder := fun _ => Returned (Some (mkOrder (Some "edited"%string)));
     exchange_cancelOrder := fun _ => Returned tt;
     exchange_createLimitOrder := fun _ => Returned (Some (mkOrder (Some "new-3"%string)));
     exchange_fetchMyTrades := fun _ =>
       Returned (Some [mkTrade (Some 100%Z) 2; mkTrade (Some 101%Z) 3]) |}.

(** A strategy whose watermark is 100. *)
Definition watermarkAt100 : World :=
  mkWorld (mkStrategy None None 7 (Some 100%Z)) [].

(** A strategy tracking one resting order on each side. *)
Definition restingBoth : World :=
  mkWorld (mkStrategy (Some "buy-1"%string) (Some "sell-1"%string) 0 None) [].

(** What a reconciliation of [side] at [price] may send to the exchange. *)
Definition orderCallAt (side : Side) (price : Q) (ev : Event) : Prop :=
  match ev with
  | CallCancelOrder _ => True
  | CallEditOrder _ s _ p => s = side /\ p = price
  | CallCreateLimitOrder s _ p => s = side /\ p = price
  | CallFetchMyTrades _ => False
  end.

(** What a whole cycle quoting [buyPrice] and [sellPrice] may send. *)
Definition cycleCallAt (buyPrice sellPrice : Q) (ev : Event) : Prop :=
  match ev with
  | CallCancelOrder _ => True
  | CallEditOrder _ s _ p | CallCreateLimitOrder s _ p =>
      p = match s with buy => buyPrice | sell => sellPrice end
  | CallFetchMyTrades _ => True
  end.

(** The trades an update counts: those strictly after the watermark. *)
Definition afterWatermark (watermark : Z) (t : Trade) : bool :=
  match trade_timestamp t with
  | Some ts => (watermark <? ts)%Z
  | None => false
  end.

Definition volumeOf (trades : list Trade) : Q :=
  fold_right (fun t acc => trade_amount t + acc) 0 trades.

(** The number of placement calls among some calls. *)
Definition isPlacement (ev : Event) : bool :=
  match ev with
  | CallCreateLimitOrder _ _ _ => true
  | _ => false
  end.

Definition placements (evs : list Event) : nat :=
  List.length (filter isPlacement evs).

Definition isCancel (ev : Event) : bool :=
  match ev with
  | CallCancelOrder _ => true
  | _ => false
  end.

(** [m] only appends calls to the history: each of them satisfies [ok],
    and at most [n] of them are placements. *)
Definition emits {A : Type} (ok : Event -> Prop) (n : nat) (m : M A) : Prop :=
  forall w, exists evs,
    calls (snd (m w)) = (calls w ++ evs)%list
    /\ Forall ok evs
    /\ (placements evs <= n)%nat.

(** Both tracked ids are [null] or a non-empty string. *)
Definition idsWellFormed (s : Strategy) : Prop :=
  currentBuyOrderId s <> Some EmptyString
  /\ currentSellOrderId s <> Some EmptyString.

(** [m] never throws. *)
Definition returns {A : Type} (m : M A) : Prop :=
  forall w, exists a, fst (m w) = Returned a.

(** [m] keeps the tracked ids well formed. *)
Definition keepsIds {A : Type} (m : M A) : Prop :=
  forall w, idsWellFormed (strategy w) -> idsWellFormed (strategy (snd (m w))).

(** The strategy as constructed: nothing tracked, no volume, no watermark. *)
Definition initialStrategy : Strategy := mkStrategy None None 0 None.

(** ** src/utils.js: [formatNumber] *)

(** [formatNumber(num, precision)]; [precision] is a number of decimals. *)
Definition formatNumber (num : Q) (precision : option Z) : Q :=
  match precision with
  | None => num
  | Some p =>
      if (p <? 0)%Z then num
      else
        let factor := inject_Z (10 ^ p) in
        inject_Z (JsMath.round (num * factor)) / factor
  end.

(** ** src/strategy.js: the constructor's check of the skew settings *)

(** [this.config.inventorySkewIntensity = v] *)
Definition withSkewIntensity (c : Config) (v : Q) : Config :=
  {| orderBookDepthLevels := orderBookDepthLevels c;
     targetSpreadPct := targetSpreadPct c;
     minSpread := minSpread c;
     maxSpread := maxSpread c;
     baseAmount := baseAmount c;
     liquidityVolumeThreshold := liquidityVolumeThreshold c;
     positionLimit := positionLimit c;
     inventorySkewIntensity := v;
     rangeTicksForLiquidity := rangeTicksForLiquidity c;
     minNotionalValue := minNotionalValue c;
     tickSize := tickSize c;
     stepSize := stepSize c;
     minAmount := minAmount c |}.

(** The two checks that end the constructor: a negative intensity is set
    to 0, and so is a positive one when [positionLimit ?? 0] is not
    positive.  The intensity is a number, so [typeof] never fires. *)
Definition validateSkewConfig (c : Config) : Config :=
  let c1 :=
    if Qlt_bool (inventorySkewIntensity c) 0 then withSkewIntensity c 0 else c in
  if (Qle_bool (JsMath.nullish (positionLimit c1) 0) 0
      && Qlt_bool 0 (inventorySkewIntensity c1))%bool
  then withSkewIntensity c1 0
  else c1.

(** ** src/exchange.js: [fetchPosition] *)

(** A position structure; its [symbol] is what [fetchPosition] reads. *)
Record Position : Type := mkPosition {
  position_symbol : string;
  position_contracts : option Q
}.

(** What [fetchPosition] reads: the market ([contract], the symbol), whether
    the exchange has [fetchPositions], and the exchange's answers to
    [fetchPositions([symbol])] and to [fetchPositions()]. *)
Record PositionsApi : Type := mkPositionsApi {
  market_contract : bool;
  marketSymbol : string;
  has_fetchPositions : bool;
  fetchPositions_symbol : Result (option (list Position));
  fetchPositions_all : Result (option (list Position))
}.

(** The inner [try]: ask for the symbol's positions, and on failure ask for
    all of them if the exchange has [fetchPositions]. *)
Definition fetchedPositions (api : PositionsApi) : Result (option (list Position)) :=
  match fetchPositions_symbol api with
  | Returned positions => Returned positions
  | Thrown fetchError =>
      if has_fetchPositions api then fetchPositions_all api
      else Thrown fetchError
  end.

(** [fetchPosition()]; the market is loaded, as for the order methods. *)
Definition fetchPosition (api : PositionsApi) : Result (option Position) :=
  if negb (market_contract api) then Returned None
  else
    match fetchedPositions api with
    | Returned (Some ((_ :: _) as positions)) =>
        Returned (find (fun p => String.eqb (position_symbol p) (marketSymbol api))
                       positions)
    | Returned _ => Returned None
    | Thrown error =>
        if (instanceOf error ExchangeError
            && (includes (message error) "Position does not exist"
                || includes (message error) "position risk"))%bool
        then Returned None
        else Thrown error
    end.

(** ** More specification vocabulary *)

(** A level lies within [range] of [target]. *)
Definition inBand (target range : Q) (lv : Level) : bool :=
  (Qle_bool (target - range) (fst lv) && Qle_bool (fst lv) (target + range))%bool.

(** Every size of a side is non-negative. *)
Definition nonNegativeSizes (l : OrderBookSide) : bool :=
  forallb (fun lv => Qle_bool 0 (snd lv)) l.

(** The placements on one side among some calls. *)
Definition placementsOn (side : Side) (evs : list Event) : nat :=
  List.length (filter (fun ev =>
    match ev, side with
    | CallCreateLimitOrder buy _ _, buy => true
    | CallCreateLimitOrder sell _ _, sell => true
    | _, _ => false
    end) evs).

(** The trade queries among some calls. *)
Definition tradeQueries (evs : list Event) : nat :=
  List.length (filter (fun ev =>
    match ev with CallFetchMyTrades _ => true | _ => false end) evs).

(** The state after a run of cycles, one per fetch outcome; a cycle that
    throws leaves its state to the next one. *)
Fixpoint afterCycles (cfg : Config) (venue : Venue) (fetches : list (Result Snapshot))
    (w : World) : World :=
  match fetches with
  | [] => w
  | fetched :: rest => afterCycles cfg venue rest (snd (runCycle cfg venue fetched w))
  end.

(** A trade stamped at [bound] or before (or not stamped at all). *)
Definition stampedAtMost (bound : Z) (t : Trade) : Prop :=
  match trade_timestamp t with
  | Some ts => (ts <= bound)%Z
  | None => True
  end.

(** The other side. *)
Definition opposite (side : Side) : Side :=
  match side with buy => sell | sell => buy end.

(** Between [s] and [s'] nothing but the id of [side] has changed. *)
Definition sameElsewhere (side : Side) (s s' : Strategy) : Prop :=
  orderIdOf (opposite side) s' = orderIdOf (opposite side) s
  /\ totalTradedBaseVolume s' = totalTradedBaseVolume s
  /\ lastTradeTimestamp s' = lastTradeTimestamp s.

(** [m] relates the strategy it starts from to the one it leaves by [R]. *)
Definition preserves {A : Type} (R : Strategy -> Strategy -> Prop) (m : M A) : Prop :=
  forall w, R (strategy w) (strategy (snd (m w))).

(** An exchange that answers a trade query with [trades], whatever came
    before. *)
Definition venueReporting (trades : list Trade) : Venue :=
  {| has_editOrder := true;
     exchange_editOrder := fun _ => Returned (Some (mkOrder (Some "edited"%string)));
     exchange_cancelOrder := fun _ => Returned tt;
     exchange_createLimitOrder := fun _ => Returned (Some (mkOrder (Some "new-4"%string)));
     exchange_fetchMyTrades := fun _ => Returned (Some trades) |}.

(** * Properties *)

(** ** Arithmetic of [JsMath] *)

Lemma Qle_bool_true (x y : Q) : Qle_bool x y = true <-> x <= y.
Proof. apply Qle_bool_iff. Qed.

Lemma Qle_bool_false (x y : Q) : Qle_bool x y = false <-> y < x.
Proof.
  split; intro H.
  - apply Qnot_le_lt. intro H'. apply Qle_bool_iff in H'. congruence.
  - destruct (Qle_bool x y) eqn:E; [| reflexivity].
    apply Qle_bool_iff in E. exfalso. apply (Qlt_not_le _ _ H E).
Qed.

Lemma Qlt_bool_true (x y : Q) : Qlt_bool x y = true <-> x < y.
Proof.
  unfold Qlt_bool. rewrite negb_true_iff. apply Qle_bool_false.
Qed.

Lemma Qlt_bool_false (x y : Q) : Qlt_bool x y = false <-> y <= x.
Proof.
  unfold Qlt_bool. rewrite negb_false_iff. apply Qle_bool_true.
Qed.

Lemma Qeq_bool_false (x y : Q) : Qeq_bool x y = false <-> ~ x == y.
Proof.
  split; intro H.
  - intro E. apply Qeq_bool_iff in E. congruence.
  - destruct (Qeq_bool x y) eqn:E; [| reflexivity].
    apply Qeq_bool_iff in E. contradiction.
Qed.

(** Turn the boolean tests of the source into propositions. *)
Ltac qbool :=
  repeat match goal with
    | H : Qle_bool _ _ = true |- _ => apply Qle_bool_true in H
    | H : Qle_bool _ _ = false |- _ => apply Qle_bool_false in H
    | H : Qlt_bool _ _ = true |- _ => apply Qlt_bool_true in H
    | H : Qlt_bool _ _ = false |- _ => apply Qlt_bool_false in H
    | H : Qeq_bool _ _ = true |- _ => apply Qeq_bool_iff in H
    | H : Qeq_bool _ _ = false |- _ => apply Qeq_bool_false in H
    end.

(** Linear arithmetic over the rationals, halves included. *)
Ltac qlra := unfold Qdiv in *; change (/ 2) with (1 # 2) in *; lra.

Lemma floor_bounds (x : Q) : inject_Z (Qfloor x) <= x /\ x < inject_Z (Qfloor x) + 1.
Proof.
  split.
  - apply Qfloor_le.
  - pose proof (Qlt_floor x) as H.
    rewrite inject_Z_plus in H. exact H.
Qed.

(** ** Degenerate precision: [adjustPriceToTickSize], [adjustAmountToStepSize] *)

(** C10. Both alignment functions are total, and return their input
    unchanged when the tick size (step size) is undefined or not
    positive: no division takes place. *)
Theorem adjust_passthrough_when_degenerate :
  forall (x : Q) (size : option Q),
    (size = None \/ exists t, size = Some t /\ t <= 0) ->
    adjustPriceToTickSize x size = x /\ adjustAmountToStepSize x size = x.
Proof.
  intros x size [-> | [t [-> Ht]]]; simpl.
  - split; reflexivity.
  - apply Qle_bool_true in Ht. rewrite Ht. split; reflexivity.
Qed.

Lemma adjust_passthrough_when_degenerate_witness :
  (adjustPriceToTickSize (7 # 2) (Some 0) = 7 # 2
   /\ adjustAmountToStepSize (7 # 2) (Some 0) = 7 # 2)
  /\ (adjustPriceToTickSize (7 # 2) None = 7 # 2
      /\ adjustAmountToStepSize (7 # 2) None = 7 # 2).
Proof.
  split.
  - apply (adjust_passthrough_when_degenerate (7 # 2) (Some 0)).
    right. exists 0. split; [reflexivity | discriminate].
  - apply (adjust_passthrough_when_degenerate (7 # 2) None).
    left. reflexivity.
Defined.

(** ** Step alignment: [adjustAmountToStepSize] *)

Lemma floor_multiple_le (x s : Q) :
  0 < s -> inject_Z (Qfloor (x / s)) * s <= x.
Proof.
  intro Hs.
  destruct (floor_bounds (x / s)) as [Hlo _].
  apply (Qmult_le_compat_r _ _ s) in Hlo; [| apply Qlt_le_weak; exact Hs].
  assert (E : x / s * s == x) by (field; intro E; rewrite E in Hs; discriminate).
  rewrite E in Hlo. exact Hlo.
Qed.





(** ** Volume-weighted average price: [calculateVwap] *)







(** ** Depth mid price: [calculateDepthMidPrice] *)



Section Chains.

Variable rel : Q -> Q -> bool.
Variable R : Q -> Q -> Prop.
Hypothesis R_refl : forall x, R x x.
Hypothesis R_trans : forall x y z, R x y -> R y z -> R x z.
Hypothesis rel_R : forall x y, rel x y = true -> R x y.


End Chains.

Example chain_checks :
  descending [(3, 1); (2, 1); (5, 1)] = false
  /\ descending [(3, 1); (2, 1); (2, 1)] = true
  /\ ascending [(1, 1); (2, 1); (1, 1)] = false
  /\ ascending [(1, 1); (2, 1); (3, 1)] = true.
Proof. repeat split. Qed.









(** ** Inventory skew *)

Lemma inventoryRatio_clamped (position limit : Q) :
  let ratio := inventoryRatio position limit in
  (-1) <= ratio <= 1
  /\ (position / limit <= (-1) -> ratio == (-1))
  /\ ((-1) <= position / limit <= 1 -> ratio == position / limit)
  /\ (1 <= position / limit -> ratio == 1).
Proof.
  unfold inventoryRatio, JsMath.max, JsMath.min.
  generalize (position / limit) as q. intro q.
  destruct (Qle_bool 1 q) eqn:E1;
    [destruct (Qle_bool 1 ((-1))) eqn:E2 | destruct (Qle_bool q ((-1))) eqn:E2];
    qbool; repeat split; intros; try lra.
Qed.

(** C4. When the skew applies (positive intensity and position limit) the
    inventory ratio is [position / positionLimit] clamped to [-1, 1],
    whatever the position; the skew is [spread * ratio * intensity]; both
    target prices move by [- skew].  With [positionLimit = 1],
    [intensity = 0.5], [spread = 10] and [position = 1] the ratio is 1, the
    skew 5, and both quotes move down by 5. *)
Theorem inventory_skew_shifts_both_quotes :
  forall (cfg : Config) (limit initialBuy initialSell spread position : Q),
    0 < inventorySkewIntensity cfg ->
    positionLimit cfg = Some limit ->
    0 < limit ->
    let ratio := inventoryRatio position limit in
    let skew := skewAdjustment cfg spread position limit in
    ((-1) <= ratio <= 1
     /\ (position / limit <= (-1) -> ratio == (-1))
     /\ ((-1) <= position / limit <= 1 -> ratio == position / limit)
     /\ (1 <= position / limit -> ratio == 1))
    /\ skew == spread * ratio * inventorySkewIntensity cfg
    /\ skewedPrices cfg initialBuy initialSell spread position
       = (initialBuy - skew, initialSell - skew)
    /\ (limit == 1 -> inventorySkewIntensity cfg == 1 # 2 ->
        spread == 10 -> position == 1 ->
        ratio == 1 /\ skew == 5
        /\ fst (skewedPrices cfg initialBuy initialSell spread position)
           == initialBuy - 5
        /\ snd (skewedPrices cfg initialBuy initialSell spread position)
           == initialSell - 5).
Proof.
  intros cfg limit initialBuy initialSell spread position Hi Hl Hpos ratio skew.
  pose proof (inventoryRatio_clamped position limit) as Hclamp.
  assert (Eprices : skewedPrices cfg initialBuy initialSell spread position
                    = (initialBuy - skew, initialSell - skew)).
  { unfold skewedPrices. rewrite Hl. cbn [JsMath.nullish].
    apply Qlt_bool_true in Hi, Hpos. rewrite Hi, Hpos. reflexivity. }
  split; [exact Hclamp |].
  split; [reflexivity |].
  split; [exact Eprices |].
  intros El Eint Es Ep.
  assert (Er : ratio == 1).
  { apply Hclamp. rewrite Ep, El. discriminate. }
  assert (Esk : skew == 5).
  { unfold skew, skewAdjustment. fold ratio. rewrite Er, Es, Eint. reflexivity. }
  rewrite Eprices. cbn [fst snd]. rewrite Esk.
  repeat split; try assumption; reflexivity.
Qed.

Lemma inventory_skew_shifts_both_quotes_witness :
  inventoryRatio 1 1 == 1
  /\ skewAdjustment exampleConfig 10 1 1 == 5
  /\ fst (skewedPrices exampleConfig 95 105 10 1) == 90
  /\ snd (skewedPrices exampleConfig 95 105 10 1) == 100.
Proof.
  destruct (inventory_skew_shifts_both_quotes exampleConfig 1 95 105 10 1
              eq_refl eq_refl eq_refl) as [_ [_ [_ H]]].
  destruct H as [Hr [Hs [Hb Ha]]]; try reflexivity.
  split; [exact Hr |]. split; [exact Hs |].
  split; [rewrite Hb | rewrite Ha]; reflexivity.
Defined.

(** ** The calls a method sends to the exchange *)

Section Emits.

Variable ok : Event -> Prop.

Lemma emits_silent {A : Type} (m : M A) (n : nat) :
  (forall w, calls (snd (m w)) = calls w) -> emits ok n m.
Proof.
  intros H w. exists []. rewrite H, app_nil_r.
  split; [reflexivity |]. split; [constructor | apply Nat.le_0_l].
Qed.

Lemma emits_ret {A : Type} (a : A) (n : nat) : emits ok n (ret a).
Proof. apply emits_silent. reflexivity. Qed.

Lemma emits_throw {A : Type} (e : JsError) (n : nat) : emits ok n (@throw A e).
Proof. apply emits_silent. reflexivity. Qed.

Lemma emits_gets {A : Type} (f : Strategy -> A) (n : nat) : emits ok n (gets f).
Proof. apply emits_silent. reflexivity. Qed.

Lemma emits_modify (f : Strategy -> Strategy) (n : nat) : emits ok n (modify f).
Proof. apply emits_silent. reflexivity. Qed.

Lemma emits_setOrderId (side : Side) (v : option string) (n : nat) :
  emits ok n (setOrderId side v).
Proof. apply emits_modify. Qed.

Lemma emits_call {A : Type} (ev : Event) (answer : list Event -> Result A) (n : nat) :
  ok ev -> (placements [ev] <= n)%nat -> emits ok n (call ev answer).
Proof.
  intros Hok Hn w. exists [ev]. split; [reflexivity |].
  split; [constructor; [exact Hok | constructor] | exact Hn].
Qed.

Lemma placements_app (l1 l2 : list Event) :
  placements (l1 ++ l2) = (placements l1 + placements l2)%nat.
Proof. unfold placements. rewrite filter_app, length_app. reflexivity. Qed.

Lemma emits_bind {A B : Type} (m : M A) (k : A -> M B) (n1 n2 : nat) :
  emits ok n1 m -> (forall a, emits ok n2 (k a)) -> emits ok (n1 + n2) (bind m k).
Proof.
  intros Hm Hk w. unfold bind.
  destruct (Hm w) as [e1 [E1 [F1 P1]]].
  destruct (m w) as [[a | err] w1]; cbn [snd] in E1.
  - destruct (Hk a w1) as [e2 [E2 [F2 P2]]].
    exists (e1 ++ e2)%list. rewrite E2, E1, app_assoc.
    split; [reflexivity |]. split; [apply Forall_app; auto |].
    rewrite placements_app. lia.
  - exists e1. cbn [snd]. split; [exact E1 |]. split; [exact F1 | lia].
Qed.

Lemma emits_tryCatch {A : Type} (m : M A) (h : JsError -> M A) (n1 n2 : nat) :
  emits ok n1 m -> (forall e, emits ok n2 (h e)) ->
  emits ok (n1 + n2) (tryCatch m h).
Proof.
  intros Hm Hh w. unfold tryCatch.
  destruct (Hm w) as [e1 [E1 [F1 P1]]].
  destruct (m w) as [[a | err] w1]; cbn [snd] in E1.
  - exists e1. cbn [snd]. split; [exact E1 |]. split; [exact F1 | lia].
  - destruct (Hh err w1) as [e2 [E2 [F2 P2]]].
    exists (e1 ++ e2)%list. rewrite E2, E1, app_assoc.
    split; [reflexivity |]. split; [apply Forall_app; auto |].
    rewrite placements_app. lia.
Qed.

Lemma emits_tryFinally {A : Type} (m : M A) (c : M unit) (n1 n2 : nat) :
  emits ok n1 m -> emits ok n2 c -> emits ok (n1 + n2) (tryFinally m c).
Proof.
  intros Hm Hc w. unfold tryFinally.
  destruct (Hm w) as [e1 [E1 [F1 P1]]].
  destruct (m w) as [r w1]; cbn [snd] in E1.
  destruct (Hc w1) as [e2 [E2 [F2 P2]]].
  exists (e1 ++ e2)%list.
  assert (E : calls (snd (let (r0, w'') := c w1 in
                          match r0 with
                          | Returned _ => (r, w'')
                          | Thrown error => (Thrown error, w'')
                          end)) = calls (snd (c w1))).
  { destruct (c w1) as [[u | err] w2]; reflexivity. }
  rewrite E, E2, E1, app_assoc.
  split; [reflexivity |]. split; [apply Forall_app; auto |].
  rewrite placements_app. lia.
Qed.

Lemma emits_weaken {A : Type} (m : M A) (n n' : nat) :
  emits ok n m -> (n <= n')%nat -> emits ok n' m.
Proof.
  intros Hm Hn w. destruct (Hm w) as [e1 [E1 [F1 P1]]].
  exists e1. split; [exact E1 |]. split; [exact F1 | lia].
Qed.

End Emits.

Lemma emits_impl {A : Type} (ok ok' : Event -> Prop) (m : M A) (n : nat) :
  (forall ev, ok ev -> ok' ev) -> emits ok n m -> emits ok' n m.
Proof.
  intros Himp Hm w. destruct (Hm w) as [e1 [E1 [F1 P1]]].
  exists e1. split; [exact E1 |]. split; [| exact P1].
  eapply Forall_impl; [| exact F1]. exact Himp.
Qed.

Section MethodCalls.

Variable cfg : Config.
Variable venue : Venue.
Variable ok : Event -> Prop.

Lemma emits_cancelOrder (id : string) :
  ok (CallCancelOrder id) -> emits ok 0 (cancelOrder venue id).
Proof.
  intro Hok. unfold cancelOrder.
  apply (emits_tryCatch ok _ _ 0 0).
  - apply (emits_bind ok _ _ 0 0).
    + apply emits_call; [exact Hok | apply Nat.le_refl].
    + intros _. apply emits_ret.
  - intro e. destruct (_ || _)%bool; apply emits_ret.
Qed.

Lemma emits_editOrder (id : string) (side : Side) (amount price : Q) :
  ok (CallEditOrder id side amount price) ->
  emits ok 0 (editOrder venue id side amount price).
Proof.
  intro Hok. unfold editOrder.
  destruct (negb (has_editOrder venue)).
  - apply emits_throw.
  - apply (emits_bind ok _ _ 0 0).
    + apply emits_call; [exact Hok | apply Nat.le_refl].
    + intros [o |]; [apply emits_ret | apply emits_throw].
Qed.

Lemma emits_createLimitOrder (side : Side) (amount price : Q) :
  ok (CallCreateLimitOrder side amount price) ->
  emits ok 1 (createLimitOrder venue side amount price).
Proof.
  intro Hok. unfold createLimitOrder.
  apply (emits_bind ok _ _ 1 0).
  - apply emits_call; [exact Hok | apply Nat.le_refl].
  - intros [o |]; [apply emits_ret | apply emits_throw].
Qed.

Lemma emits_placeIfNeeded (side : Side) (placeNewOrder shouldPlace : bool)
    (targetAmount targetPrice : Q) :
  ok (CallCreateLimitOrder side targetAmount targetPrice) ->
  emits ok 1 (placeIfNeeded cfg venue side placeNewOrder shouldPlace
                targetAmount targetPrice).
Proof.
  intro Hok. unfold placeIfNeeded.
  destruct (_ && _)%bool.
  - apply (emits_tryCatch ok _ _ 1 0).
    + apply (emits_bind ok _ _ 1 0).
      * apply emits_createLimitOrder. exact Hok.
      * intro o. destruct (tracked (order_id o)); apply emits_setOrderId.
    + intros _. apply emits_setOrderId.
  - destruct placeNewOrder; [apply emits_setOrderId | apply emits_ret].
Qed.

Lemma emits_cancelAndClear (side : Side) (orderId : string) :
  ok (CallCancelOrder orderId) -> emits ok 0 (cancelAndClear venue side orderId).
Proof.
  intro Hok. unfold cancelAndClear.
  apply (emits_tryFinally ok _ _ 0 0); [| apply emits_setOrderId].
  apply (emits_tryCatch ok _ _ 0 0); [| intros _; apply emits_ret].
  apply (emits_bind ok _ _ 0 0); [| intros _; apply emits_ret].
  apply emits_cancelOrder. exact Hok.
Qed.

Lemma emits_editOrReplace (side : Side) (orderId : string)
    (targetAmount targetPrice : Q) :
  ok (CallCancelOrder orderId) ->
  ok (CallEditOrder orderId side targetAmount targetPrice) ->
  emits ok 0 (editOrReplace venue side orderId targetAmount targetPrice).
Proof.
  intros Hc He. unfold editOrReplace.
  apply (emits_tryCatch ok _ _ 0 0).
  - destruct (has_editOrder venue).
    + apply (emits_bind ok _ _ 0 0); [| intros _; apply emits_ret].
      apply emits_editOrder. exact He.
    + apply (emits_bind ok _ _ 0 0); [apply emits_cancelOrder; exact Hc |].
      intros _. apply (emits_bind ok _ _ 0 0); [apply emits_setOrderId |].
      intros _. apply emits_ret.
  - intro e. destruct (_ && _)%bool; [apply emits_ret |].
    destruct (_ || _)%bool.
    + apply (emits_bind ok _ _ 0 0); [apply emits_setOrderId |].
      intros _. apply emits_ret.
    + apply (emits_bind ok _ _ 0 0); [apply emits_cancelAndClear; exact Hc |].
      intros _. apply emits_ret.
Qed.

Lemma emits_manageOrder (side : Side) (shouldPlace : bool)
    (targetAmount targetPrice : Q) :
  (forall ev, orderCallAt side targetPrice ev -> ok ev) ->
  emits ok 1 (manageOrder cfg venue side shouldPlace targetAmount targetPrice).
Proof.
  intro Hok. unfold manageOrder.
  apply (emits_bind ok _ _ 0 1); [apply emits_gets |].
  intro currentId. destruct (tracked currentId) as [orderId |].
  - apply (emits_bind ok _ _ 0 1).
    + destruct (if Qlt_bool targetAmount (minAmount cfg) then false else shouldPlace).
      * apply emits_editOrReplace; apply Hok; cbn; auto.
      * apply (emits_bind ok _ _ 0 0); [| intros _; apply emits_ret].
        apply emits_cancelAndClear. apply Hok. exact I.
    + intro placeNewOrder. apply emits_placeIfNeeded. apply Hok. cbn. auto.
  - apply emits_placeIfNeeded. apply Hok. cbn. auto.
Qed.

Lemma emits_cancelStale (side : Side) (id : option string) :
  (forall i, ok (CallCancelOrder i)) -> emits ok 0 (cancelStale venue side id).
Proof.
  intro Hok. unfold cancelStale. destruct (tracked id) as [staleId |].
  - apply (emits_bind ok _ _ 0 0); [apply emits_setOrderId |].
    intros _. apply (emits_tryCatch ok _ _ 0 0); [| intros _; apply emits_ret].
    apply (emits_bind ok _ _ 0 0); [| intros _; apply emits_ret].
    apply emits_cancelOrder. apply Hok.
  - apply emits_ret.
Qed.

Lemma emits_cancelStaleOrdersIfNeeded :
  (forall i, ok (CallCancelOrder i)) -> emits ok 0 (cancelStaleOrdersIfNeeded venue).
Proof.
  intro Hok. unfold cancelStaleOrdersIfNeeded.
  apply (emits_bind ok _ _ 0 0); [apply emits_gets |]. intro buyId.
  apply (emits_bind ok _ _ 0 0); [apply emits_gets |]. intro sellId.
  apply (emits_bind ok _ _ 0 0); [apply emits_cancelStale; exact Hok |].
  intros _. apply emits_cancelStale. exact Hok.
Qed.

Lemma emits_updateTradedVolume :
  (forall since, ok (CallFetchMyTrades since)) ->
  emits ok 0 (updateTradedVolume venue).
Proof.
  intro Hok. unfold updateTradedVolume.
  apply (emits_tryCatch ok _ _ 0 0); [| intros _; apply emits_ret].
  apply (emits_bind ok _ _ 0 0); [apply emits_gets |]. intro since.
  apply (emits_bind ok _ _ 0 0).
  - apply emits_call; [apply Hok | apply Nat.le_refl].
  - intros [[| t ts] |]; try apply emits_ret.
    destruct (tradesLoop _ _ _ _) as [newVolume latest].
    destruct (Qlt_bool 0 newVolume); [apply emits_modify | apply emits_ret].
Qed.

End MethodCalls.

(** ** Reconciliation of one side: [manageOrder] *)

(** C3. One call of [manageOrder] sends at most one placement to the
    exchange, whatever the exchange answers: also when the edit fails or is
    unsupported and the same call cancels and places anew.  Every call it
    sends is a cancel, or an edit or placement on its own side at the
    target price. *)
Theorem manageOrder_places_at_most_once :
  forall (cfg : Config) (venue : Venue) (side : Side) (shouldPlace : bool)
         (targetAmount targetPrice : Q) (w : World),
    exists evs,
      calls (snd (manageOrder cfg venue side shouldPlace targetAmount targetPrice w))
      = (calls w ++ evs)%list
      /\ Forall (orderCallAt side targetPrice) evs
      /\ (placements evs <= 1)%nat.
Proof.
  intros cfg venue side shouldPlace targetAmount targetPrice w.
  apply (emits_manageOrder cfg venue (orderCallAt side targetPrice)).
  auto.
Qed.

(** The fallback paths do place: without [editOrder] the tracked order is
    cancelled and one order placed; after a rejected edit whose cancel also
    fails, one order is placed all the same. *)
Example manageOrder_fallback_without_edit :
  calls (snd (manageOrder exampleConfig venueWithoutEdit buy true (1 # 100) 99 restingBoth))
  = [CallCancelOrder "buy-1"; CallCreateLimitOrder buy (1 # 100) 99]
  /\ currentBuyOrderId
       (strategy (snd (manageOrder exampleConfig venueWithoutEdit buy true (1 # 100) 99
                         restingBoth)))
     = Some "new-1"%string.
Proof. split; reflexivity. Qed.

Example manageOrder_fallback_after_rejected_edit :
  calls (snd (manageOrder exampleConfig venueRejectingEdit sell true (1 # 100) 101
                restingBoth))
  = [CallEditOrder "sell-1" sell (1 # 100) 101; CallCancelOrder "sell-1";
     CallCreateLimitOrder sell (1 # 100) 101].
Proof. reflexivity. Qed.

(** C5. When an order is tracked on the side and the target amount is
    strictly below [minAmount], [manageOrder] sends exactly one call, the
    cancel of the tracked order; the side's id is cleared whatever the
    exchange answers; nothing is placed or edited, and the other side's id
    is untouched. *)
Theorem manageOrder_below_minimum_cancels :
  forall (cfg : Config) (venue : Venue) (side : Side) (shouldPlace : bool)
         (targetAmount targetPrice : Q) (w : World) (orderId : string),
    tracked (orderIdOf side (strategy w)) = Some orderId ->
    targetAmount < minAmount cfg ->
    let r := manageOrder cfg venue side shouldPlace targetAmount targetPrice w in
    fst r = Returned tt
    /\ calls (snd r) = (calls w ++ [CallCancelOrder orderId])%list
    /\ orderIdOf side (strategy (snd r)) = None
    /\ orderIdOf (match side with buy => sell | sell => buy end) (strategy (snd r))
       = orderIdOf (match side with buy => sell | sell => buy end) (strategy w).
Proof.
  intros cfg venue side shouldPlace targetAmount targetPrice w orderId Ht Hlt r.
  subst r. apply Qlt_bool_true in Hlt.
  unfold manageOrder, bind, gets. cbn [fst snd]. rewrite Ht, Hlt.
  unfold cancelAndClear, cancelOrder, placeIfNeeded, setOrderId.
  unfold tryFinally, tryCatch, bind, modify, call, ret.
  cbn [strategy calls andb].
  destruct (exchange_cancelOrder venue (calls w ++ [CallCancelOrder orderId]))
    as [[] | error].
  - destruct side; cbn; auto.
  - destruct (_ || _)%bool; destruct side; cbn; auto.
Qed.

Lemma manageOrder_below_minimum_cancels_witness :
  calls (snd (manageOrder exampleConfig venueRejectingEdit buy true 0 99 restingBoth))
  = [CallCancelOrder "buy-1"]
  /\ currentBuyOrderId
       (strategy (snd (manageOrder exampleConfig venueRejectingEdit buy true 0 99
                         restingBoth)))
     = None.
Proof.
  destruct (manageOrder_below_minimum_cancels exampleConfig venueRejectingEdit buy true
              0 99 restingBoth "buy-1" eq_refl eq_refl) as [_ [Hc [Hid _]]].
  split; [exact Hc | exact Hid].
Defined.

(** ** Stale-order cleanup: [cancelStaleOrdersIfNeeded] *)

(** C9. The stale-order cleanup always completes; afterwards neither side
    tracks an order, and on a strategy whose ids are [null] or non-empty
    both ids are [null], whatever the exchange answers to the cancels;
    the only calls it sends are cancels, and the volume fields are
    untouched. *)
Theorem cancelStale_clears_both_ids :
  forall (venue : Venue) (w : World),
    let r := cancelStaleOrdersIfNeeded venue w in
    fst r = Returned tt
    /\ tracked (currentBuyOrderId (strategy (snd r))) = None
    /\ tracked (currentSellOrderId (strategy (snd r))) = None
    /\ (idsWellFormed (strategy w) ->
        currentBuyOrderId (strategy (snd r)) = None
        /\ currentSellOrderId (strategy (snd r)) = None)
    /\ totalTradedBaseVolume (strategy (snd r)) = totalTradedBaseVolume (strategy w)
    /\ lastTradeTimestamp (strategy (snd r)) = lastTradeTimestamp (strategy w)
    /\ exists evs, calls (snd r) = (calls w ++ evs)%list
                   /\ Forall (fun ev => isCancel ev = true) evs.
Proof.
  intros venue [[buyId sellId total last] history] r. subst r.
  assert (Hcalls : exists evs,
             calls (snd (cancelStaleOrdersIfNeeded venue
                           (mkWorld (mkStrategy buyId sellId total last) history)))
             = (history ++ evs)%list
             /\ Forall (fun ev => isCancel ev = true) evs).
  { destruct (emits_cancelStaleOrdersIfNeeded venue (fun ev => isCancel ev = true)
                (fun _ => eq_refl)
                (mkWorld (mkStrategy buyId sellId total last) history))
      as [evs [E [F _]]].
    exists evs. split; assumption. }
  unfold cancelStaleOrdersIfNeeded, cancelStale, cancelOrder, setOrderId,
    idsWellFormed in *.
  unfold tryCatch, bind, gets, modify, call, ret in *.
  cbn [strategy calls currentBuyOrderId currentSellOrderId fst snd
       totalTradedBaseVolume lastTradeTimestamp] in *.
  destruct buyId as [[| c1 s1] |]; destruct sellId as [[| c2 s2] |];
    cbn [tracked fst snd strategy calls currentBuyOrderId currentSellOrderId
         totalTradedBaseVolume lastTradeTimestamp] in *;
    repeat match goal with
      | |- context [exchange_cancelOrder venue ?h] =>
          destruct (exchange_cancelOrder venue h) as [[] | ?error];
          cbn [tracked fst snd strategy calls currentBuyOrderId currentSellOrderId
               totalTradedBaseVolume lastTradeTimestamp] in *
      | |- context [if ?b then _ else _] =>
          destruct b;
          cbn [tracked fst snd strategy calls currentBuyOrderId currentSellOrderId
               totalTradedBaseVolume lastTradeTimestamp] in *
      end;
    repeat split; try reflexivity; try exact Hcalls;
    match goal with
    | H : _ <> _ /\ _ <> _ |- _ =>
        destruct H as [H1 H2]; exfalso;
        first [apply H1; reflexivity | apply H2; reflexivity]
    end.
Qed.

Lemma cancelStale_clears_both_ids_witness :
  currentBuyOrderId (strategy (snd (cancelStaleOrdersIfNeeded venueRejectingEdit restingBoth)))
  = None
  /\ currentSellOrderId
       (strategy (snd (cancelStaleOrdersIfNeeded venueRejectingEdit restingBoth)))
     = None.
Proof.
  destruct (cancelStale_clears_both_ids venueRejectingEdit restingBoth)
    as [_ [_ [_ [H _]]]].
  apply H. split; discriminate.
Defined.

Example cancelStale_failed_cancels :
  calls (snd (cancelStaleOrdersIfNeeded venueRejectingEdit restingBoth))
  = [CallCancelOrder "buy-1"; CallCancelOrder "sell-1"].
Proof. reflexivity. Qed.

(** ** Traded volume: [updateTradedVolume] *)

Lemma tradesLoop_counts (watermark : Z) (trades : list Trade) :
  forall (newVolume : Q) (latest : Z),
    fst (tradesLoop watermark trades newVolume latest)
    == newVolume + volumeOf (filter (afterWatermark watermark) trades).
Proof.
  induction trades as [| t trades IH]; intros newVolume latest.
  - unfold volumeOf. cbn. ring.
  - cbn [tradesLoop filter]. unfold afterWatermark at 1.
    destruct (trade_timestamp t) as [ts |]; [| apply IH].
    destruct (watermark <? ts)%Z; [| apply IH].
    rewrite IH. unfold volumeOf. cbn [fold_right]. ring.
Qed.

Lemma tradesLoop_skips_watermark (watermark : Z) (t : Trade) (before after : list Trade) :
  trade_timestamp t = Some watermark ->
  forall (newVolume : Q) (latest : Z),
    tradesLoop watermark (before ++ t :: after) newVolume latest
    = tradesLoop watermark (before ++ after) newVolume latest.
Proof.
  intro Ht. induction before as [| b before IH]; intros newVolume latest.
  - cbn [app tradesLoop]. rewrite Ht, Z.ltb_irrefl. reflexivity.
  - cbn [app tradesLoop].
    destruct (trade_timestamp b) as [ts |]; [| apply IH].
    destruct (watermark <? ts)%Z; apply IH.
Qed.

(** C6. An update of the traded volume never fails.  The trades it counts
    are those whose timestamp is strictly after the prior watermark: a
    trade stamped exactly at the watermark is not among them, and leaving
    it out of the fetched list changes nothing.  The total never decreases.
    When the fetch fails the strategy is left as it was, total and
    watermark included; when it succeeds the total grows by the counted
    volume if that is positive, and the strategy is left as it was
    otherwise. *)
Theorem updateTradedVolume_exclusive_and_monotone :
  forall (venue : Venue) (w : World),
    let since := lastTradeTimestamp (strategy w) in
    let watermark := JsMath.nullish since 0%Z in
    let r := updateTradedVolume venue w in
    fst r = Returned tt
    /\ totalTradedBaseVolume (strategy w) <= totalTradedBaseVolume (strategy (snd r))
    /\ match exchange_fetchMyTrades venue (calls w ++ [CallFetchMyTrades since]) with
       | Thrown _ => strategy (snd r) = strategy w
       | Returned fetched =>
           let counted :=
             filter (afterWatermark watermark) (JsMath.nullish fetched []) in
           Forall (fun t => trade_timestamp t <> Some watermark) counted
           /\ (if Qlt_bool 0 (volumeOf counted)
               then totalTradedBaseVolume (strategy (snd r))
                    == totalTradedBaseVolume (strategy w) + volumeOf counted
               else strategy (snd r) = strategy w)
       end
    /\ (forall t before after newVolume latest,
          trade_timestamp t = Some watermark ->
          tradesLoop watermark (before ++ t :: after) newVolume latest
          = tradesLoop watermark (before ++ after) newVolume latest).
Proof.
  intros venue w since watermark r.
  assert (Hcounted : forall trades,
             Forall (fun t => trade_timestamp t <> Some watermark)
                    (filter (afterWatermark watermark) trades)).
  { intro trades. apply Forall_forall. intros t Hin.
    apply filter_In in Hin. destruct Hin as [_ Hin]. unfold afterWatermark in Hin.
    intro E. rewrite E, Z.ltb_irrefl in Hin. discriminate. }
  split; [| split; [| split]].
  4: { intros t before after newVolume latest Ht.
       apply tradesLoop_skips_watermark. exact Ht. }
  all: subst r; unfold updateTradedVolume.
  all: unfold tryCatch, bind, gets, call, modify, ret.
  all: cbn [fst snd strategy calls].
  all: fold since.
  all: destruct (exchange_fetchMyTrades venue (calls w ++ [CallFetchMyTrades since]))
         as [[[| t ts] |] | error];
       cbn [fst snd strategy calls totalTradedBaseVolume JsMath.nullish];
       try reflexivity; try apply Qle_refl.
  all: try (split; [apply Hcounted | reflexivity]).
  all: fold watermark.
  all: pose proof (tradesLoop_counts watermark (t :: ts) 0 watermark) as Hsum.
  all: destruct (tradesLoop watermark (t :: ts) 0 watermark) as [newVolume latest].
  all: cbn [fst] in Hsum; rewrite Qplus_0_l in Hsum.
  all: destruct (Qlt_bool 0 newVolume) eqn:Epos;
       cbn [fst snd strategy calls totalTradedBaseVolume];
       try reflexivity; try apply Qle_refl.
  - qbool. lra.
  - split; [apply Hcounted |].
    destruct (Qlt_bool 0 (volumeOf (filter (afterWatermark watermark) (t :: ts))))
      eqn:Epos'; qbool.
    + rewrite Hsum. reflexivity.
    + exfalso. rewrite Hsum in Epos. lra.
  - split; [apply Hcounted |].
    destruct (Qlt_bool 0 (volumeOf (filter (afterWatermark watermark) (t :: ts))))
      eqn:Epos'; qbool.
    + exfalso. rewrite Hsum in Epos. lra.
    + reflexivity.
Qed.

Lemma updateTradedVolume_exclusive_and_monotone_witness :
  tradesLoop 100 ([] ++ mkTrade (Some 100%Z) 2 :: [mkTrade (Some 101%Z) 3]) 0 100
  = tradesLoop 100 ([] ++ [mkTrade (Some 101%Z) 3]) 0 100.
Proof.
  destruct (updateTradedVolume_exclusive_and_monotone venueWithTrades watermarkAt100)
    as [_ [_ [_ H]]].
  apply H. reflexivity.
Defined.

(** The trade stamped at the watermark is skipped, the later one counted,
    and the watermark moves past it. *)
Example updateTradedVolume_run :
  strategy (snd (updateTradedVolume venueWithTrades watermarkAt100))
  = mkStrategy None None (7 + (0 + 3)) (Some 102%Z).
Proof. reflexivity. Qed.

(** ** What cannot throw *)

Lemma returns_ret {A : Type} (a : A) : returns (ret a).
Proof. intro w. exists a. reflexivity. Qed.

Lemma returns_gets {A : Type} (f : Strategy -> A) : returns (gets f).
Proof. intro w. eexists. reflexivity. Qed.

Lemma returns_modify (f : Strategy -> Strategy) : returns (modify f).
Proof. intro w. exists tt. reflexivity. Qed.

Lemma returns_bind {A B : Type} (m : M A) (k : A -> M B) :
  returns m -> (forall a, returns (k a)) -> returns (bind m k).
Proof.
  intros Hm Hk w. unfold bind. destruct (Hm w) as [a Ea].
  destruct (m w) as [[a' | err] w1]; cbn [fst] in Ea; [| discriminate].
  apply Hk.
Qed.

Lemma returns_tryCatch {A : Type} (m : M A) (h : JsError -> M A) :
  (forall e, returns (h e)) -> returns (tryCatch m h).
Proof.
  intros Hh w. unfold tryCatch.
  destruct (m w) as [[a | err] w1]; [exists a; reflexivity | apply Hh].
Qed.

Lemma tryCatch_returns {A : Type} (m : M A) (h : JsError -> M A) (w : World) :
  (exists a, fst (m w) = Returned a) -> tryCatch m h w = m w.
Proof.
  intros [a Ea]. unfold tryCatch.
  destruct (m w) as [[a' | err] w1]; [reflexivity | discriminate].
Qed.

Lemma returns_cancelStaleOrdersIfNeeded (venue : Venue) :
  returns (cancelStaleOrdersIfNeeded venue).
Proof.
  assert (H : forall side id, returns (cancelStale venue side id)).
  { intros side id. unfold cancelStale. destruct (tracked id) as [staleId |].
    - apply returns_bind; [apply returns_modify |]. intros _.
      apply returns_tryCatch. intros _. apply returns_ret.
    - apply returns_ret. }
  unfold cancelStaleOrdersIfNeeded.
  apply returns_bind; [apply returns_gets |]. intro buyId.
  apply returns_bind; [apply returns_gets |]. intro sellId.
  apply returns_bind; [apply H |]. intros _. apply H.
Qed.

Lemma returns_cycleBody (cfg : Config) (venue : Venue) (snap : Snapshot) :
  returns (cycleBody cfg venue snap).
Proof.
  unfold cycleBody.
  destruct (planCycle cfg snap) as [[buyQuote sellQuote] |];
    [| apply returns_cancelStaleOrdersIfNeeded].
  apply returns_bind; [apply returns_tryCatch; intros _; apply returns_ret |].
  intros _.
  apply returns_bind; [apply returns_tryCatch; intros _; apply returns_ret |].
  intros _. unfold updateTradedVolume.
  apply returns_tryCatch. intros _. apply returns_ret.
Qed.

(** A cycle whose fetches succeed is its [try] block: the handler is not
    reached. *)
Lemma runCycle_fetched (cfg : Config) (venue : Venue) (snap : Snapshot) (w : World) :
  runCycle cfg venue (Returned snap) w = cycleBody cfg venue snap w.
Proof.
  unfold runCycle. apply tryCatch_returns. apply returns_cycleBody.
Qed.

(** ** Final prices of a cycle: [runCycle] *)

Lemma finalPrices_uncrossed (cfg : Config) (tick : Q) :
  tickSize cfg = Some tick -> 0 < tick ->
  forall targetBuyPrice targetSellPrice,
    match finalPrices cfg targetBuyPrice targetSellPrice with
    | Some (buyPrice, sellPrice) => buyPrice < sellPrice
    | None => True
    end.
Proof.
  intros Ht Hpos targetBuyPrice targetSellPrice.
  unfold finalPrices. rewrite Ht.
  assert (Hnz : Qeq_bool tick 0 = false).
  { apply Qeq_bool_false. intro E. rewrite E in Hpos. discriminate. }
  rewrite Hnz. cbn [negb]. rewrite andb_true_r.
  repeat match goal with
    | |- context [if Qle_bool ?a ?b then _ else _] =>
        let E := fresh "E" in destruct (Qle_bool a b) eqn:E
    end; qbool; try exact I; assumption.
Qed.

Lemma planPrices_uncrossed (cfg : Config) (tick : Q) (snap : Snapshot) :
  tickSize cfg = Some tick -> 0 < tick ->
  match planPrices cfg snap with
  | Some (buyPrice, sellPrice) => buyPrice < sellPrice
  | None => True
  end.
Proof.
  intros Ht Hpos. unfold planPrices.
  destruct (orderBook snap) as [ob |]; [| exact I].
  destruct (_ && _)%bool; [| exact I].
  destruct (OrderBookAnalyzer.calculateDepthMidPrice _ _) as [mid |]; [| exact I].
  destruct (skewedPrices _ _ _ _ _) as [b0 s0].
  apply (finalPrices_uncrossed cfg tick Ht Hpos).
Qed.

(** The plan of a cycle quotes the final prices. *)
Lemma planCycle_prices (cfg : Config) (snap : Snapshot) :
  match planPrices cfg snap, planCycle cfg snap with
  | Some (buyPrice, sellPrice), Some (buyQuote, sellQuote) =>
      price buyQuote = buyPrice /\ price sellQuote = sellPrice
  | Some _, None => tickSize cfg = None
  | None, Some _ => False
  | None, None => True
  end.
Proof.
  unfold planCycle.
  destruct (planPrices cfg snap) as [[b s] |] eqn:Ep; [| exact I].
  assert (Hob : exists ob, orderBook snap = Some ob).
  { unfold planPrices in Ep. destruct (orderBook snap) as [ob |]; [| discriminate].
    exists ob. reflexivity. }
  destruct Hob as [ob ->].
  destruct (tickSize cfg) as [tick |]; [| reflexivity].
  destruct (positionGate _ _ _ _) as [[[placeBuy buyAmount] placeSell] sellAmount].
  destruct (notionalGate cfg placeBuy _ _) as [placeBuy1 buyAmount1].
  destruct (notionalGate cfg placeSell _ _) as [placeSell1 sellAmount1].
  destruct (balanceGate _ _ _ _) as [placeBuy2 buyAmount2].
  destruct (sellGate _ _ _ _ _) as [placeSell2 sellAmount2].
  split; reflexivity.
Qed.

(** C1. With a positive tick size: the prices that come out of tick
    alignment and of the crossed-book correction satisfy [buy < sell], or
    planning aborts.  In a cycle (one whose fetches succeeded) that plans
    prices, every order it places
    or edits is at the final buy price on the buy side and at the final
    sell price on the sell side; in a cycle that aborts, [runCycle] is the
    stale-order cleanup and sends cancels only. *)
Theorem final_prices_uncrossed_or_cycle_aborts :
  forall (cfg : Config) (venue : Venue) (tick : Q),
    tickSize cfg = Some tick ->
    0 < tick ->
    (forall targetBuyPrice targetSellPrice,
        match finalPrices cfg targetBuyPrice targetSellPrice with
        | Some (buyPrice, sellPrice) => buyPrice < sellPrice
        | None => True
        end)
    /\ (forall (snap : Snapshot) (w : World),
         exists evs,
           calls (snd (runCycle cfg venue (Returned snap) w)) = (calls w ++ evs)%list
           /\ match planPrices cfg snap with
              | Some (buyPrice, sellPrice) =>
                  buyPrice < sellPrice
                  /\ Forall (cycleCallAt buyPrice sellPrice) evs
              | None =>
                  runCycle cfg venue (Returned snap) w
                  = cancelStaleOrdersIfNeeded venue w
                  /\ Forall (fun ev => isCancel ev = true) evs
              end).
Proof.
  intros cfg venue tick Ht Hpos.
  split; [apply (finalPrices_uncrossed cfg tick Ht Hpos) |].
  intros snap w.
  pose proof (planPrices_uncrossed cfg tick snap Ht Hpos) as Hlt.
  pose proof (planCycle_prices cfg snap) as Hplan.
  rewrite runCycle_fetched. unfold cycleBody.
  destruct (planPrices cfg snap) as [[buyPrice sellPrice] |].
  - destruct (planCycle cfg snap) as [[buyQuote sellQuote] |];
      [| rewrite Ht in Hplan; discriminate].
    destruct Hplan as [Eb Es].
    assert (Hem : emits (cycleCallAt buyPrice sellPrice) 2
                    (tryCatch
                       (manageOrder cfg venue buy (shouldPlace buyQuote)
                          (amount buyQuote) (price buyQuote))
                       (fun _ => ret tt) ;;
                     tryCatch
                       (manageOrder cfg venue sell (shouldPlace sellQuote)
                          (amount sellQuote) (price sellQuote))
                       (fun _ => ret tt) ;;
                     updateTradedVolume venue)).
    { apply (emits_bind _ _ _ 1 1).
      - apply (emits_tryCatch _ _ _ 1 0); [| intros _; apply emits_ret].
        apply emits_manageOrder. rewrite Eb.
        intros [id s a p | id | s a p | since]; cbn; try tauto;
          intros [-> ->]; reflexivity.
      - intros _. apply (emits_bind _ _ _ 1 0).
        + apply (emits_tryCatch _ _ _ 1 0); [| intros _; apply emits_ret].
          apply emits_manageOrder. rewrite Es.
          intros [id s a p | id | s a p | since]; cbn; try tauto;
            intros [-> ->]; reflexivity.
        + intros _. apply emits_updateTradedVolume. intro since. exact I. }
    destruct (Hem w) as [evs [E [F _]]].
    exists evs. split; [exact E |]. split; [exact Hlt | exact F].
  - destruct (planCycle cfg snap) as [[buyQuote sellQuote] |]; [destruct Hplan |].
    destruct (emits_cancelStaleOrdersIfNeeded venue (fun ev => isCancel ev = true)
                (fun _ => eq_refl) w) as [evs [E [F _]]].
    exists evs. split; [exact E |]. split; [reflexivity | exact F].
Qed.

Lemma final_prices_uncrossed_or_cycle_aborts_witness :
  match finalPrices exampleConfig 100 100 with
  | Some (buyPrice, sellPrice) => buyPrice < sellPrice
  | None => True
  end.
Proof.
  destruct (final_prices_uncrossed_or_cycle_aborts exampleConfig venueWithoutEdit
              (1 # 10) eq_refl eq_refl) as [H _].
  apply (H 100 100).
Defined.

(** Equal targets are separated by lowering the buy price one tick; targets
    crossed by more than two ticks abort; a cycle without an order book
    only cancels what rests. *)
Example finalPrices_runs :
  match finalPrices exampleConfig 100 100 with
  | Some (buyPrice, sellPrice) => buyPrice == 999 # 10 /\ sellPrice == 100
  | None => False
  end
  /\ finalPrices exampleConfig 101 100 = None
  /\ calls (snd (runCycle exampleConfig venueRejectingEdit
                   (Returned (mkSnapshot None 1000 None)) restingBoth))
     = [CallCancelOrder "buy-1"; CallCancelOrder "sell-1"].
Proof. repeat split. Qed.

(** A whole cycle on the example book, long half the position limit, with
    both sides resting on an exchange without [editOrder]: both quotes are
    skewed down by a quarter, the sell size is cut to the position held, and
    each side is cancelled and placed once. *)
Example runCycle_quotes_both_sides :
  calls (snd (runCycle quotingConfig venueWithoutEdit
                (Returned (mkSnapshot (Some exampleBook) 1000 (Some (1 # 2))))
                restingBoth))
  = [CallCancelOrder "buy-1";
     CallCreateLimitOrder buy (inject_Z 1000 * (1 # 1000)) (inject_Z 993 * (1 # 10));
     CallCancelOrder "sell-1";
     CallCreateLimitOrder sell (inject_Z 500 * (1 # 1000)) (inject_Z 1003 * (1 # 10));
     CallFetchMyTrades None].
Proof. vm_compute. reflexivity. Qed.

(** ** The tracked ids stay well formed

    A tracked id is written from [newOrder.id] only when that is truthy, so
    from the initial strategy on both ids are [null] or non-empty. *)

Section KeepsIds.

Lemma keepsIds_still {A : Type} (m : M A) :
  (forall w, strategy (snd (m w)) = strategy w) -> keepsIds m.
Proof. intros H w Hw. rewrite H. exact Hw. Qed.

Lemma keepsIds_ret {A : Type} (a : A) : keepsIds (ret a).
Proof. apply keepsIds_still. reflexivity. Qed.

Lemma keepsIds_throw {A : Type} (e : JsError) : keepsIds (@throw A e).
Proof. apply keepsIds_still. reflexivity. Qed.

Lemma keepsIds_gets {A : Type} (f : Strategy -> A) : keepsIds (gets f).
Proof. apply keepsIds_still. reflexivity. Qed.

Lemma keepsIds_call {A : Type} (ev : Event) (answer : list Event -> Result A) :
  keepsIds (call ev answer).
Proof. apply keepsIds_still. reflexivity. Qed.

Lemma keepsIds_setOrderId (side : Side) (v : option string) :
  v <> Some EmptyString -> keepsIds (setOrderId side v).
Proof.
  intros Hv w [Hb Hs]. destruct side; split; cbn; assumption.
Qed.

Lemma keepsIds_bind {A B : Type} (m : M A) (k : A -> M B) :
  keepsIds m -> (forall a, keepsIds (k a)) -> keepsIds (bind m k).
Proof.
  intros Hm Hk w Hw. unfold bind. specialize (Hm w Hw).
  destruct (m w) as [[a | err] w1]; cbn [snd] in *.
  - apply Hk. exact Hm.
  - exact Hm.
Qed.

Lemma keepsIds_tryCatch {A : Type} (m : M A) (h : JsError -> M A) :
  keepsIds m -> (forall e, keepsIds (h e)) -> keepsIds (tryCatch m h).
Proof.
  intros Hm Hh w Hw. unfold tryCatch. specialize (Hm w Hw).
  destruct (m w) as [[a | err] w1]; cbn [snd] in *.
  - exact Hm.
  - apply Hh. exact Hm.
Qed.

Lemma keepsIds_tryFinally {A : Type} (m : M A) (c : M unit) :
  keepsIds m -> keepsIds c -> keepsIds (tryFinally m c).
Proof.
  intros Hm Hc w Hw. unfold tryFinally. specialize (Hm w Hw).
  destruct (m w) as [r w1]; cbn [snd] in *. specialize (Hc w1 Hm).
  destruct (c w1) as [[u | err] w2]; exact Hc.
Qed.

Lemma tracked_nonempty (o : option string) (s : string) :
  tracked o = Some s -> Some s <> Some EmptyString.
Proof.
  destruct o as [[| c r] |]; cbn; intro H; inversion H; discriminate.
Qed.

End KeepsIds.

Section MethodsKeepIds.

Variable cfg : Config.
Variable venue : Venue.

Lemma keepsIds_cancelOrder (id : string) : keepsIds (cancelOrder venue id).
Proof.
  unfold cancelOrder. apply keepsIds_tryCatch.
  - apply keepsIds_bind; [apply keepsIds_call | intros _; apply keepsIds_ret].
  - intro e. destruct (_ || _)%bool; apply keepsIds_ret.
Qed.

Lemma keepsIds_cancelAndClear (side : Side) (id : string) :
  keepsIds (cancelAndClear venue side id).
Proof.
  unfold cancelAndClear. apply keepsIds_tryFinally.
  - apply keepsIds_tryCatch; [| intros _; apply keepsIds_ret].
    apply keepsIds_bind; [apply keepsIds_cancelOrder | intros _; apply keepsIds_ret].
  - apply keepsIds_setOrderId. discriminate.
Qed.

Lemma keepsIds_placeIfNeeded (side : Side) (placeNewOrder shouldPlace : bool)
    (targetAmount targetPrice : Q) :
  keepsIds (placeIfNeeded cfg venue side placeNewOrder shouldPlace
              targetAmount targetPrice).
Proof.
  unfold placeIfNeeded. destruct (_ && _)%bool.
  - apply keepsIds_tryCatch.
    + apply keepsIds_bind.
      * unfold createLimitOrder. apply keepsIds_bind; [apply keepsIds_call |].
        intros [o |]; [apply keepsIds_ret | apply keepsIds_throw].
      * intro o. destruct (tracked (order_id o)) as [newId |] eqn:E;
          apply keepsIds_setOrderId;
          [apply (tracked_nonempty _ _ E) | discriminate].
    + intros _. apply keepsIds_setOrderId. discriminate.
  - destruct placeNewOrder;
      [apply keepsIds_setOrderId; discriminate | apply keepsIds_ret].
Qed.

Lemma keepsIds_editOrReplace (side : Side) (id : string) (targetAmount targetPrice : Q) :
  keepsIds (editOrReplace venue side id targetAmount targetPrice).
Proof.
  unfold editOrReplace. apply keepsIds_tryCatch.
  - destruct (has_editOrder venue).
    + apply keepsIds_bind; [| intros _; apply keepsIds_ret].
      unfold editOrder. destruct (negb _); [apply keepsIds_throw |].
    apply keepsIds_bind; [apply keepsIds_call |].
    intros [o |]; [apply keepsIds_ret | apply keepsIds_throw].
    + apply keepsIds_bind; [apply keepsIds_cancelOrder |]. intros _.
      apply keepsIds_bind; [apply keepsIds_setOrderId; discriminate |].
      intros _. apply keepsIds_ret.
  - intro e. destruct (_ && _)%bool; [apply keepsIds_ret |].
    destruct (_ || _)%bool.
    + apply keepsIds_bind; [apply keepsIds_setOrderId; discriminate |].
      intros _. apply keepsIds_ret.
    + apply keepsIds_bind; [apply keepsIds_cancelAndClear |].
      intros _. apply keepsIds_ret.
Qed.

Lemma keepsIds_manageOrder (side : Side) (shouldPlace : bool)
    (targetAmount targetPrice : Q) :
  keepsIds (manageOrder cfg venue side shouldPlace targetAmount targetPrice).
Proof.
  unfold manageOrder. apply keepsIds_bind; [apply keepsIds_gets |].
  intro currentId. destruct (tracked currentId) as [orderId |].
  - apply keepsIds_bind; [| intro; apply keepsIds_placeIfNeeded].
    destruct (if Qlt_bool targetAmount (minAmount cfg) then false else shouldPlace).
    + apply keepsIds_editOrReplace.
    + apply keepsIds_bind; [apply keepsIds_cancelAndClear |].
      intros _. apply keepsIds_ret.
  - apply keepsIds_placeIfNeeded.
Qed.

Lemma keepsIds_cancelStaleOrdersIfNeeded : keepsIds (cancelStaleOrdersIfNeeded venue).
Proof.
  assert (H : forall side id, keepsIds (cancelStale venue side id)).
  { intros side id. unfold cancelStale. destruct (tracked id) as [staleId |].
    - apply keepsIds_bind; [apply keepsIds_setOrderId; discriminate |].
      intros _. apply keepsIds_tryCatch; [| intros _; apply keepsIds_ret].
      apply keepsIds_bind; [apply keepsIds_cancelOrder |].
      intros _. apply keepsIds_ret.
    - apply keepsIds_ret. }
  unfold cancelStaleOrdersIfNeeded.
  apply keepsIds_bind; [apply keepsIds_gets |]. intro buyId.
  apply keepsIds_bind; [apply keepsIds_gets |]. intro sellId.
  apply keepsIds_bind; [apply H |]. intros _. apply H.
Qed.

Lemma keepsIds_updateTradedVolume : keepsIds (updateTradedVolume venue).
Proof.
  unfold updateTradedVolume.
  apply keepsIds_tryCatch; [| intros _; apply keepsIds_ret].
  apply keepsIds_bind; [apply keepsIds_gets |]. intro since.
  apply keepsIds_bind; [apply keepsIds_call |].
  intros [[| t ts] |]; try apply keepsIds_ret.
  destruct (tradesLoop _ _ _ _) as [newVolume latest].
  destruct (Qlt_bool 0 newVolume); [| apply keepsIds_ret].
  intros w Hw. exact Hw.
Qed.

(** Every cycle keeps the tracked ids well formed, and they are so in the
    strategy as constructed. *)
Lemma keepsIds_runCycle (fetched : Result Snapshot) :
  keepsIds (runCycle cfg venue fetched).
Proof.
  unfold runCycle. apply keepsIds_tryCatch.
  - destruct fetched as [snap | error]; [| apply keepsIds_throw].
    unfold cycleBody.
    destruct (planCycle cfg snap) as [[buyQuote sellQuote] |];
      [| apply keepsIds_cancelStaleOrdersIfNeeded].
    apply keepsIds_bind.
    + apply keepsIds_tryCatch; [apply keepsIds_manageOrder | intros _; apply keepsIds_ret].
    + intros _. apply keepsIds_bind; [| intros _; apply keepsIds_updateTradedVolume].
      apply keepsIds_tryCatch; [apply keepsIds_manageOrder | intros _; apply keepsIds_ret].
  - intro error.
    repeat match goal with
      | |- context [if ?b then _ else _] => destruct b
      end;
      first [apply keepsIds_throw | apply keepsIds_cancelStaleOrdersIfNeeded].
Qed.

Lemma idsWellFormed_initially : idsWellFormed initialStrategy.
Proof. split; discriminate. Qed.

End MethodsKeepIds.

(** * Further properties of the code *)

(** ** Rounding *)

Lemma floor_unique (x : Q) (n : Z) :
  inject_Z n <= x -> x < inject_Z n + 1 -> Qfloor x = n.
Proof.
  intros Hlo Hhi.
  destruct (floor_bounds x) as [Flo Fhi].
  assert (H1 : (n < Qfloor x + 1)%Z).
  { rewrite Zlt_Qlt, inject_Z_plus. change (inject_Z 1) with 1. lra. }
  assert (H2 : (Qfloor x < n + 1)%Z).
  { rewrite Zlt_Qlt, inject_Z_plus. change (inject_Z 1) with 1. lra. }
  lia.
Qed.

Lemma round_integer (k : Z) (x : Q) : x == inject_Z k -> JsMath.round x = k.
Proof.
  intro E. unfold JsMath.round. apply floor_unique; rewrite E; lra.
Qed.



Lemma round_monotone (x y : Q) : x <= y -> (JsMath.round x <= JsMath.round y)%Z.
Proof.
  intro H. unfold JsMath.round. apply Qfloor_resp_le. lra.
Qed.

Lemma positive_nonzero (t : Q) : 0 < t -> ~ t == 0.
Proof. intros H E. rewrite E in H. discriminate. Qed.

Lemma quotient_of_multiple (k : Z) (t : Q) : 0 < t -> inject_Z k * t / t == inject_Z k.
Proof. intro H. field. apply positive_nonzero. exact H. Qed.


Lemma div_le_compat (x y t : Q) : 0 < t -> x <= y -> x / t <= y / t.
Proof.
  intros Ht H. unfold Qdiv. apply Qmult_le_compat_r; [exact H |].
  apply Qlt_le_weak. apply Qinv_lt_0_compat. exact Ht.
Qed.

(** The aligned price when the tick is positive. *)
Lemma adjustPrice_positive (price t : Q) :
  0 < t ->
  adjustPriceToTickSize price (Some t) = inject_Z (JsMath.round (price / t)) * t.
Proof.
  intro H. unfold adjustPriceToTickSize.
  apply Qle_bool_false in H. rewrite H. reflexivity.
Qed.

Lemma adjustAmount_positive (amount s : Q) :
  0 < s ->
  adjustAmountToStepSize amount (Some s) = inject_Z (JsMath.floor (amount / s)) * s.
Proof.
  intro H. unfold adjustAmountToStepSize.
  apply Qle_bool_false in H. rewrite H. reflexivity.
Qed.

(** X1. Tick alignment is idempotent: aligning an aligned price returns it,
    for every tick size (undefined and non-positive ones included). *)
Theorem tick_alignment_idempotent :
  forall (price : Q) (tickSize : option Q),
    adjustPriceToTickSize (adjustPriceToTickSize price tickSize) tickSize
    == adjustPriceToTickSize price tickSize.
Proof.
  intros price [t |]; [| reflexivity].
  destruct (Qle_bool t 0) eqn:E.
  - unfold adjustPriceToTickSize. rewrite E. reflexivity.
  - qbool. rewrite !(adjustPrice_positive _ t E).
    rewrite (round_integer (JsMath.round (price / t))); [reflexivity |].
    apply quotient_of_multiple. exact E.
Qed.





(** X4. Both alignments are monotone: a larger price never aligns to a
    smaller price, a larger amount never to a smaller amount, for every
    tick and step size. *)
Theorem alignment_monotone :
  forall (x y : Q) (size : option Q),
    x <= y ->
    adjustPriceToTickSize x size <= adjustPriceToTickSize y size
    /\ adjustAmountToStepSize x size <= adjustAmountToStepSize y size.
Proof.
  intros x y [t |] H; [| split; exact H].
  destruct (Qle_bool t 0) eqn:E.
  - unfold adjustPriceToTickSize, adjustAmountToStepSize. rewrite E.
    split; exact H.
  - qbool. rewrite !(adjustPrice_positive _ t E), !(adjustAmount_positive _ t E).
    pose proof (div_le_compat x y t E H) as Hq.
    split; apply Qmult_le_compat_r; try (apply Qlt_le_weak; exact E);
      rewrite <- Zle_Qle.
    + apply round_monotone. exact Hq.
    + apply Qfloor_resp_le. exact Hq.
Qed.

Lemma alignment_monotone_witness :
  adjustPriceToTickSize (1 # 4) (Some (1 # 10)) <= adjustPriceToTickSize (1 # 3) (Some (1 # 10))
  /\ adjustAmountToStepSize (1 # 4) (Some (1 # 10))
     <= adjustAmountToStepSize (1 # 3) (Some (1 # 10)).
Proof.
  apply (alignment_monotone (1 # 4) (1 # 3) (Some (1 # 10))). discriminate.
Defined.

(** ** Display rounding: [formatNumber] *)





Example formatNumber_runs :
  formatNumber (31415 # 10000) (Some 2%Z) == 314 # 100
  /\ formatNumber (5 # 2) (Some 0%Z) == 3
  /\ formatNumber (- (5 # 2)) (Some 0%Z) == - (2).
Proof. repeat split. Qed.

(** ** Order-book analysis *)

Lemma calculateVwap_some_nonEmpty (side : option OrderBookSide) (levels : Z) (v : Q) :
  OrderBookAnalyzer.calculateVwap side levels = Some v ->
  OrderBookAnalyzer.nonEmpty side = true.
Proof.
  destruct side as [[| lv rest] |]; cbn; intro H; try discriminate; reflexivity.
Qed.

Lemma calculateDepthMidPrice_none_iff (ob : OrderBook) (levels : Z) :
  OrderBookAnalyzer.calculateDepthMidPrice (Some ob) levels = None
  <-> (OrderBookAnalyzer.nonEmpty (bids ob)
       && OrderBookAnalyzer.nonEmpty (asks ob))%bool = false.
Proof.
  unfold OrderBookAnalyzer.calculateDepthMidPrice.
  destruct (OrderBookAnalyzer.calculateVwap (bids ob) levels) as [bv |] eqn:Eb;
    destruct (OrderBookAnalyzer.calculateVwap (asks ob) levels) as [av |] eqn:Ea.
  - rewrite (calculateVwap_some_nonEmpty _ _ _ Eb),
      (calculateVwap_some_nonEmpty _ _ _ Ea).
    split; discriminate.
  - destruct (bids ob) as [[| [pb vb] rb] |]; destruct (asks ob) as [[| [pa va] ra] |];
      cbn; split; intro; try reflexivity; discriminate.
  - destruct (bids ob) as [[| [pb vb] rb] |]; destruct (asks ob) as [[| [pa va] ra] |];
      cbn; split; intro; try reflexivity; discriminate.
  - destruct (bids ob) as [[| [pb vb] rb] |]; destruct (asks ob) as [[| [pa va] ra] |];
      cbn; split; intro; try reflexivity; discriminate.
Qed.

(** X6. The depth mid price is unavailable exactly when the book is missing
    or one of its sides is missing or empty: whenever both sides hold a
    level, a price is returned, whatever the depth and the sizes. *)
Theorem depth_mid_price_available_iff :
  forall (orderBook : option OrderBook) (levels : Z),
    OrderBookAnalyzer.calculateDepthMidPrice orderBook levels = None
    <-> match orderBook with
        | None => True
        | Some ob =>
            (OrderBookAnalyzer.nonEmpty (bids ob)
             && OrderBookAnalyzer.nonEmpty (asks ob))%bool = false
        end.
Proof.
  intros [ob |] levels; [| split; reflexivity].
  apply calculateDepthMidPrice_none_iff.
Qed.

Lemma volumeLoop_sums (orders : OrderBookSide) (target range : Q) :
  forall acc,
    OrderBookAnalyzer.volumeLoop orders (target - range) (target + range) acc
    == acc + totalVolumeOf (filter (inBand target range) orders).
Proof.
  induction orders as [| [p v] rest IH]; intro acc.
  - unfold totalVolumeOf. cbn. ring.
  - cbn [OrderBookAnalyzer.volumeLoop filter].
    replace (inBand target range (p, v))
      with (Qle_bool (target - range) p && Qle_bool p (target + range))%bool
      by reflexivity.
    destruct (Qle_bool (target - range) p && Qle_bool p (target + range))%bool.
    + rewrite IH. unfold totalVolumeOf. cbn [fold_right snd]. ring.
    + apply IH.
Qed.

Lemma getVolumeNearPrice_sums (orders : OrderBookSide) (target range : Q) :
  0 <= range ->
  OrderBookAnalyzer.getVolumeNearPrice (Some orders) target range
  == totalVolumeOf (filter (inBand target range) orders).
Proof.
  intro Hr. unfold OrderBookAnalyzer.getVolumeNearPrice.
  apply Qlt_bool_false in Hr.
  destruct orders as [| lv rest].
  - reflexivity.
  - replace (Nat.eqb (List.length (lv :: rest)) 0) with false by reflexivity.
    rewrite Hr. cbn [orb]. rewrite volumeLoop_sums. ring.
Qed.

Lemma filtered_volume_le (f g : Level -> bool) (l : OrderBookSide) :
  (forall lv, f lv = true -> g lv = true) ->
  nonNegativeSizes l = true ->
  0 <= totalVolumeOf (filter f l)
  /\ totalVolumeOf (filter f l) <= totalVolumeOf (filter g l)
  /\ totalVolumeOf (filter g l) <= totalVolumeOf l.
Proof.
  intros Hfg. induction l as [| [p v] l IH]; intro Hs.
  - unfold totalVolumeOf. cbn. repeat split; lra.
  - unfold nonNegativeSizes in *. cbn [forallb snd] in Hs.
    apply andb_true_iff in Hs. destruct Hs as [Hv Hs]. qbool.
    destruct (IH Hs) as [H0 [H1 H2]].
    cbn [filter]. specialize (Hfg (p, v)).
    unfold totalVolumeOf in *.
    destruct (f (p, v)); destruct (g (p, v)); cbn [fold_right snd];
      try (specialize (Hfg eq_refl); discriminate);
      repeat split; lra.
Qed.

(** X7. Near-price volume: within a non-negative range it is the total
    size of the levels whose price lies in [target - range, target + range]
    (both ends included); it is 0 for a negative range and for a missing or
    empty side.  On a side without negative sizes it is never negative,
    never more than the side's total size, and never shrinks when the
    range grows. *)
Theorem volume_near_price_band :
  forall (orders : OrderBookSide) (target range wider : Q),
    (0 <= range ->
     OrderBookAnalyzer.getVolumeNearPrice (Some orders) target range
     == totalVolumeOf (filter (inBand target range) orders))
    /\ (range < 0 ->
        OrderBookAnalyzer.getVolumeNearPrice (Some orders) target range = 0)
    /\ OrderBookAnalyzer.getVolumeNearPrice None target range = 0
    /\ OrderBookAnalyzer.getVolumeNearPrice (Some []) target range = 0
    /\ (nonNegativeSizes orders = true ->
        0 <= OrderBookAnalyzer.getVolumeNearPrice (Some orders) target range
        /\ OrderBookAnalyzer.getVolumeNearPrice (Some orders) target range
           <= totalVolumeOf orders
        /\ (0 <= range -> range <= wider ->
            OrderBookAnalyzer.getVolumeNearPrice (Some orders) target range
            <= OrderBookAnalyzer.getVolumeNearPrice (Some orders) target wider)).
Proof.
  intros orders target range wider.
  split; [apply getVolumeNearPrice_sums |].
  split.
  { intro Hr. unfold OrderBookAnalyzer.getVolumeNearPrice.
    apply Qlt_bool_true in Hr. rewrite Hr, orb_true_r. reflexivity. }
  split; [reflexivity |]. split; [reflexivity |].
  intro Hs.
  assert (Hband : forall r, 0 <= r ->
             0 <= OrderBookAnalyzer.getVolumeNearPrice (Some orders) target r
             /\ OrderBookAnalyzer.getVolumeNearPrice (Some orders) target r
                <= totalVolumeOf orders).
  { intros r Hr. rewrite (getVolumeNearPrice_sums orders target r Hr).
    destruct (filtered_volume_le (inBand target r) (inBand target r) orders
                (fun _ H => H) Hs) as [H0 [_ H2]].
    split; assumption. }
  assert (Htotal : 0 <= totalVolumeOf orders).
  { destruct (Hband 0 (Qle_refl 0)) as [H0 H1]. lra. }
  destruct (Qlt_le_dec range 0) as [Hneg | Hpos].
  - assert (E : OrderBookAnalyzer.getVolumeNearPrice (Some orders) target range = 0).
    { unfold OrderBookAnalyzer.getVolumeNearPrice.
      apply Qlt_bool_true in Hneg. rewrite Hneg, orb_true_r. reflexivity. }
    rewrite E. split; [apply Qle_refl |]. split; [exact Htotal |].
    intro H. exfalso. lra.
  - destruct (Hband range Hpos) as [H0 H1].
    split; [exact H0 |]. split; [exact H1 |].
    intros _ Hw.
    assert (Hw0 : 0 <= wider) by lra.
    rewrite (getVolumeNearPrice_sums orders target range Hpos),
      (getVolumeNearPrice_sums orders target wider Hw0).
    apply (filtered_volume_le (inBand target range) (inBand target wider) orders);
      [| exact Hs].
    intros [p v]. unfold inBand. cbn [fst]. intro H.
    apply andb_true_iff in H. destruct H as [Ha Hb]. qbool.
    apply andb_true_iff. split; apply Qle_bool_true; lra.
Qed.

Lemma volume_near_price_band_witness :
  OrderBookAnalyzer.getVolumeNearPrice (Some [(100, 5); (999 # 10, 5)]) 100 (1 # 20)
  <= OrderBookAnalyzer.getVolumeNearPrice (Some [(100, 5); (999 # 10, 5)]) 100 (1 # 10)
  /\ OrderBookAnalyzer.getVolumeNearPrice (Some [(100, 5); (999 # 10, 5)]) 100 (-1) = 0.
Proof.
  destruct (volume_near_price_band [(100, 5); (999 # 10, 5)] 100 (1 # 20) (1 # 10))
    as [_ [_ [_ [_ H]]]].
  destruct (volume_near_price_band [(100, 5); (999 # 10, 5)] 100 (-1) 0)
    as [_ [Hneg _]].
  split.
  - destruct (H eq_refl) as [_ [_ Hm]]. apply Hm; discriminate.
  - apply Hneg. reflexivity.
Defined.

Example volume_near_price_runs :
  OrderBookAnalyzer.getVolumeNearPrice (Some [(100, 5); (999 # 10, 5)]) 100 (1 # 20) == 5
  /\ OrderBookAnalyzer.getVolumeNearPrice (Some [(100, 5); (999 # 10, 5)]) 100 (1 # 10)
     == 10
  /\ OrderBookAnalyzer.getVolumeNearPriceTicks (Some [(100, 5); (999 # 10, 5)]) 100 1
       (Some (1 # 10)) == 10
  /\ OrderBookAnalyzer.getVolumeNearPriceTicks (Some [(100, 5); (999 # 10, 5)]) 100 1
       (Some 0) = 0.
Proof. repeat split. Qed.

(** ** Planning: spread, skew and final prices *)

Lemma max_spec (x y : Q) :
  x <= JsMath.max x y /\ y <= JsMath.max x y
  /\ (JsMath.max x y = x \/ JsMath.max x y = y).
Proof.
  unfold JsMath.max. destruct (Qle_bool y x) eqn:E; qbool;
    repeat split; auto; lra.
Qed.

Lemma min_spec (x y : Q) :
  JsMath.min x y <= x /\ JsMath.min x y <= y
  /\ (JsMath.min x y = x \/ JsMath.min x y = y).
Proof.
  unfold JsMath.min. destruct (Qle_bool x y) eqn:E; qbool;
    repeat split; auto; lra.
Qed.

(** X8. The target spread is never below [minSpread ?? 0]; it is never
    above [maxSpread] unless [maxSpread] is below that minimum, in which
    case it is the minimum; inside the two bounds it is
    [depthMidPrice * targetSpreadPct] itself. *)
Theorem target_spread_clamped :
  forall (cfg : Config) (depthMidPrice : Q),
    let low := JsMath.nullish (minSpread cfg) 0 in
    let raw := depthMidPrice * targetSpreadPct cfg in
    low <= targetSpread cfg depthMidPrice
    /\ (forall high, maxSpread cfg = Some high ->
          (low <= high -> targetSpread cfg depthMidPrice <= high)
          /\ (high < low -> targetSpread cfg depthMidPrice == low)
          /\ (low <= raw <= high -> targetSpread cfg depthMidPrice == raw))
    /\ (maxSpread cfg = None -> low <= raw -> targetSpread cfg depthMidPrice == raw).
Proof.
  intros cfg mid low raw. unfold targetSpread. fold low. fold raw.
  clearbody low raw.
  split; [apply max_spec |].
  split.
  - intros high ->. unfold JsMath.max, JsMath.min.
    destruct (Qle_bool high raw) eqn:E1;
      [destruct (Qle_bool high low) eqn:E2 | destruct (Qle_bool raw low) eqn:E2];
      qbool; repeat split; intros; lra.
  - intros -> H. unfold JsMath.max.
    destruct (Qle_bool raw low) eqn:E; qbool; lra.
Qed.

Lemma target_spread_clamped_witness :
  targetSpread exampleConfig 100 <= 50
  /\ targetSpread exampleConfig 100 == 10.
Proof.
  destruct (target_spread_clamped exampleConfig 100) as [_ [H _]].
  destruct (H 50 eq_refl) as [Hhigh [_ Hraw]].
  split; [apply Hhigh; discriminate |].
  rewrite Hraw; [reflexivity | split; discriminate].
Defined.

Lemma scale_by_fraction (a m : Q) : 0 <= a -> 0 <= m <= 1 -> 0 <= a * m <= a.
Proof. intros Ha [Hm0 Hm1]. split; nra. Qed.


(** X9. Liquidity scaling (positive threshold, non-negative base amount and
    near-price volume): the amount lies between 0 and [baseAmount]; it is
    the full [baseAmount] once the volume reaches the threshold, and
    [baseAmount * volume / threshold] below it. *)
Theorem liquidity_amount_capped :
  forall (cfg : Config) (volumeNear : Q),
    0 < liquidityVolumeThreshold cfg ->
    0 <= baseAmount cfg ->
    0 <= volumeNear ->
    0 <= liquidityAmount cfg volumeNear <= baseAmount cfg
    /\ (liquidityVolumeThreshold cfg <= volumeNear ->
        liquidityAmount cfg volumeNear == baseAmount cfg)
    /\ (volumeNear <= liquidityVolumeThreshold cfg ->
        liquidityAmount cfg volumeNear
        == baseAmount cfg * volumeNear / liquidityVolumeThreshold cfg).
Proof.
  intros cfg v Ht Hb Hv. unfold liquidityAmount.
  set (t := liquidityVolumeThreshold cfg) in *. set (b := baseAmount cfg) in *.
  assert (Hq : 0 <= v / t).
  { apply Qle_shift_div_l; [exact Ht | lra]. }
  assert (Hq1 : t <= v -> 1 <= v / t).
  { intro H. apply Qle_shift_div_l; [exact Ht | lra]. }
  assert (Hq2 : v <= t -> v / t <= 1).
  { intro H. apply Qle_shift_div_r; [exact Ht | lra]. }
  destruct (min_spec 1 (v / t)) as [M1 [M2 _]].
  assert (M0 : 0 <= JsMath.min 1 (v / t)).
  { unfold JsMath.min. destruct (Qle_bool 1 (v / t)); lra. }
  split; [apply scale_by_fraction; [exact Hb | split; assumption] |].
  split.
  - intro H. specialize (Hq1 H). unfold JsMath.min.
    apply Qle_bool_true in Hq1. rewrite Hq1. ring.
  - intro H. specialize (Hq2 H). unfold JsMath.min.
    destruct (Qle_bool 1 (v / t)) eqn:E; qbool.
    + assert (E1 : v / t == 1) by lra.
      unfold Qdiv in *. rewrite <- Qmult_assoc, E1. reflexivity.
    + unfold Qdiv. ring.
Qed.

Lemma liquidity_amount_capped_witness :
  0 <= liquidityAmount quotingConfig 10 <= 1
  /\ liquidityAmount quotingConfig 10 == 1.
Proof.
  destruct (liquidity_amount_capped quotingConfig 10 eq_refl) as [H1 [H2 _]];
    try discriminate.
  split; [exact H1 | apply H2; discriminate].
Defined.



Lemma inject_Z_pred (k : Z) : inject_Z (k - 1) == inject_Z k - 1.
Proof.
  unfold Z.sub. rewrite inject_Z_plus, inject_Z_opp. reflexivity.
Qed.

Lemma multiples_le (a b : Z) (t : Q) :
  0 < t -> (inject_Z a * t <= inject_Z b * t <-> (a <= b)%Z).
Proof.
  intro Ht. rewrite (Qmult_le_r _ _ t Ht), <- Zle_Qle. reflexivity.
Qed.

Lemma skewedPrices_width (cfg : Config) (ib isell spread position : Q) :
  snd (skewedPrices cfg ib isell spread position)
  - fst (skewedPrices cfg ib isell spread position) == isell - ib.
Proof.
  unfold skewedPrices. destruct (_ && _)%bool; cbn [fst snd]; ring.
Qed.

(** Targets that are not crossed always yield final prices: the sell price
    is the aligned sell target, the buy price the aligned buy target or one
    tick below it. *)
Lemma finalPrices_of_ordered_targets (cfg : Config) (tick tb ts : Q) :
  tickSize cfg = Some tick -> 0 < tick -> tb <= ts ->
  exists (b s : Q) (kb ks : Z),
    finalPrices cfg tb ts = Some (b, s)
    /\ s = adjustPriceToTickSize ts (Some tick)
    /\ (b = adjustPriceToTickSize tb (Some tick)
        \/ b == adjustPriceToTickSize tb (Some tick) - tick)
    /\ b == inject_Z kb * tick /\ s == inject_Z ks * tick
    /\ (kb < ks)%Z.
Proof.
  intros Ht Hpos Hle. unfold finalPrices. rewrite Ht.
  assert (Hnz : Qeq_bool tick 0 = false).
  { apply Qeq_bool_false. apply positive_nonzero. exact Hpos. }
  rewrite Hnz. cbn [negb]. rewrite andb_true_r.
  rewrite !(adjustPrice_positive _ tick Hpos).
  set (kb := JsMath.round (tb / tick)). set (ks := JsMath.round (ts / tick)).
  assert (Hk : (kb <= ks)%Z).
  { apply round_monotone. apply div_le_compat; assumption. }
  destruct (Qle_bool (inject_Z ks * tick) (inject_Z kb * tick)) eqn:E1.
  - qbool. apply (multiples_le ks kb tick Hpos) in E1.
    assert (Er : JsMath.round ((inject_Z kb * tick - tick) / tick) = (kb - 1)%Z).
    { apply round_integer. rewrite inject_Z_pred.
      field. apply positive_nonzero. exact Hpos. }
    rewrite Er.
    destruct (Qle_bool (inject_Z ks * tick) (inject_Z (kb - 1) * tick)) eqn:E2.
    + qbool. apply (multiples_le ks (kb - 1) tick Hpos) in E2. lia.
    + exists (inject_Z (kb - 1) * tick), (inject_Z ks * tick), (kb - 1)%Z, ks.
      split; [reflexivity |]. split; [reflexivity |].
      split.
      { right. rewrite inject_Z_pred. ring. }
      split; [reflexivity |]. split; [reflexivity | lia].
  - exists (inject_Z kb * tick), (inject_Z ks * tick), kb, ks.
    split; [reflexivity |]. split; [reflexivity |].
    split; [left; reflexivity |].
    split; [reflexivity |]. split; [reflexivity |].
    qbool.
    destruct (Z.eq_dec kb ks) as [Eq | Ne]; [| lia].
    rewrite Eq in E1. exfalso. apply (Qlt_irrefl _ E1).
Qed.



Lemma planPrices_of_usable_book (cfg : Config) (tick : Q) (snap : Snapshot) (ob : OrderBook) :
  tickSize cfg = Some tick -> 0 < tick ->
  0 <= JsMath.nullish (minSpread cfg) 0 ->
  orderBook snap = Some ob ->
  (OrderBookAnalyzer.nonEmpty (bids ob) && OrderBookAnalyzer.nonEmpty (asks ob))%bool
  = true ->
  exists b s, planPrices cfg snap = Some (b, s).
Proof.
  intros Ht Hpos Hmin Hob Hne. unfold planPrices. rewrite Hob, Hne.
  destruct (OrderBookAnalyzer.calculateDepthMidPrice (Some ob) (orderBookDepthLevels cfg))
    as [mid |] eqn:Em.
  - pose proof (skewedPrices_width cfg (mid - targetSpread cfg mid / 2)
                  (mid + targetSpread cfg mid / 2) (targetSpread cfg mid)
                  (JsMath.nullish (position snap) 0)) as Hw.
    destruct (skewedPrices cfg _ _ _ _) as [b0 s0]. cbn [fst snd] in Hw.
    assert (Hs : JsMath.nullish (minSpread cfg) 0 <= targetSpread cfg mid).
    { unfold targetSpread. apply max_spec. }
    assert (Hle : b0 <= s0) by qlra.
    destruct (finalPrices_of_ordered_targets cfg tick b0 s0 Ht Hpos Hle)
      as [b [s [kb [ks [E _]]]]].
    exists b, s. exact E.
  - apply calculateDepthMidPrice_none_iff in Em. rewrite Hne in Em. discriminate.
Qed.

(** X12. With a positive tick size and a non-negative [minSpread ?? 0], the
    planning of a cycle is abandoned only for an unusable book (missing, or
    with a missing or empty side): on a book with a level on each side the
    two target quotes are always planned, so neither the failed mid price
    nor the crossed quotes are ever the reason for skipping a cycle. *)
Theorem plan_abandoned_only_for_unusable_book :
  forall (cfg : Config) (tick : Q) (snap : Snapshot),
    tickSize cfg = Some tick ->
    0 < tick ->
    0 <= JsMath.nullish (minSpread cfg) 0 ->
    (planCycle cfg snap = None
     <-> match orderBook snap with
         | None => True
         | Some ob =>
             (OrderBookAnalyzer.nonEmpty (bids ob)
              && OrderBookAnalyzer.nonEmpty (asks ob))%bool = false
         end).
Proof.
  intros cfg tick snap Ht Hpos Hmin.
  pose proof (planCycle_prices cfg snap) as Hplan.
  destruct (orderBook snap) as [ob |] eqn:Hob.
  - destruct (OrderBookAnalyzer.nonEmpty (bids ob) && OrderBookAnalyzer.nonEmpty (asks ob))%bool
      eqn:Hne.
    + destruct (planPrices_of_usable_book cfg tick snap ob Ht Hpos Hmin Hob Hne)
        as [b [s Ep]].
      rewrite Ep in Hplan.
      destruct (planCycle cfg snap) as [[bq sq] |].
      * split; discriminate.
      * rewrite Ht in Hplan. discriminate.
    + assert (Ep : planPrices cfg snap = None).
      { unfold planPrices. rewrite Hob, Hne. reflexivity. }
      rewrite Ep in Hplan.
      destruct (planCycle cfg snap) as [[bq sq] |]; [destruct Hplan |].
      split; reflexivity.
  - assert (Ep : planPrices cfg snap = None).
    { unfold planPrices. rewrite Hob. reflexivity. }
    rewrite Ep in Hplan.
    destruct (planCycle cfg snap) as [[bq sq] |]; [destruct Hplan |].
    split; auto.
Qed.

Lemma plan_abandoned_only_for_unusable_book_witness :
  planCycle exampleConfig (mkSnapshot (Some (mkOrderBook (Some [(100, 5)]) (Some []))) 0 None)
  = None.
Proof.
  apply (plan_abandoned_only_for_unusable_book exampleConfig (1 # 10)
           (mkSnapshot (Some (mkOrderBook (Some [(100, 5)]) (Some []))) 0 None)
           eq_refl eq_refl).
  - discriminate.
  - reflexivity.
Defined.

(** ** Planning: sizes and gates *)

(** A comparison between closed rationals. *)
Ltac qclosed :=
  vm_compute;
  first [reflexivity | let H := fresh in intro H; discriminate H].

(** The stages a planned cycle went through. *)
Lemma planCycle_stages (cfg : Config) (snap : Snapshot) (bq sq : TargetQuote) :
  planCycle cfg snap = Some (bq, sq) ->
  exists (ob : OrderBook) (tick : Q)
         (placeBuy placeSell placeBuy1 placeSell1 : bool)
         (buyAmount sellAmount buyAmount1 sellAmount1 : Q),
    orderBook snap = Some ob
    /\ tickSize cfg = Some tick
    /\ planPrices cfg snap = Some (price bq, price sq)
    /\ positionGate cfg (JsMath.nullish (position snap) 0)
         (liquidityAmount cfg
            (OrderBookAnalyzer.getVolumeNearPriceTicks (bids ob) (price bq)
               (JsMath.nullish (rangeTicksForLiquidity cfg) 30) (tickSize cfg)))
         (liquidityAmount cfg
            (OrderBookAnalyzer.getVolumeNearPriceTicks (asks ob) (price sq)
               (JsMath.nullish (rangeTicksForLiquidity cfg) 30) (tickSize cfg)))
       = (placeBuy, buyAmount, placeSell, sellAmount)
    /\ notionalGate cfg placeBuy (adjustAmountToStepSize buyAmount (stepSize cfg))
         (price bq) = (placeBuy1, buyAmount1)
    /\ notionalGate cfg placeSell (adjustAmountToStepSize sellAmount (stepSize cfg))
         (price sq) = (placeSell1, sellAmount1)
    /\ balanceGate (balance snap) placeBuy1 buyAmount1 (price bq)
       = (shouldPlace bq, amount bq)
    /\ sellGate cfg (JsMath.nullish (position snap) 0) placeSell1 sellAmount1 (price sq)
       = (shouldPlace sq, amount sq).
Proof.
  unfold planCycle.
  destruct (planPrices cfg snap) as [[b s] |]; [| discriminate].
  destruct (orderBook snap) as [ob |]; [| discriminate].
  destruct (tickSize cfg) as [tick |] eqn:Ht; [| discriminate].
  destruct (positionGate _ _ _ _) as [[[placeBuy buyAmount] placeSell] sellAmount] eqn:Eg.
  destruct (notionalGate cfg placeBuy _ _) as [placeBuy1 buyAmount1] eqn:En1.
  destruct (notionalGate cfg placeSell _ _) as [placeSell1 sellAmount1] eqn:En2.
  destruct (balanceGate _ _ _ _) as [placeBuy2 buyAmount2] eqn:Eb.
  destruct (sellGate _ _ _ _ _) as [placeSell2 sellAmount2] eqn:Es.
  intro H. inversion H. subst bq sq. cbn [price shouldPlace amount].
  exists ob, tick, placeBuy, placeSell, placeBuy1, placeSell1,
    buyAmount, sellAmount, buyAmount1, sellAmount1.
  repeat (split; [first [reflexivity | assumption] |]). assumption.
Qed.

Lemma notionalGate_spec (cfg : Config) (place : bool) (a p : Q) :
  let r := notionalGate cfg place a p in
  (fst r = true ->
   place = true /\ snd r = a
   /\ (0 < a -> JsMath.nullish (minNotionalValue cfg) 10 <= a * p))
  /\ (snd r = a \/ snd r = 0).
Proof.
  unfold notionalGate.
  destruct place; cbn [andb];
    [destruct (Qlt_bool 0 a) eqn:E1; cbn [andb];
     [destruct (Qlt_bool (a * p) (JsMath.nullish (minNotionalValue cfg) 10)) eqn:E2 |] |];
    cbn [fst snd]; qbool; split; auto; intro H; try discriminate;
    repeat split; auto; intro; try lra.
Qed.

Lemma balanceGate_spec (bal : Q) (place : bool) (a p : Q) :
  let r := balanceGate bal place a p in
  (fst r = true -> place = true /\ snd r = a /\ (a * p <= bal \/ a * p <= 0))
  /\ (snd r = a \/ snd r = 0).
Proof.
  unfold balanceGate.
  destruct place; cbn [andb];
    [destruct (Qlt_bool bal (a * p)) eqn:E1; cbn [andb];
     [destruct (Qlt_bool 0 (a * p)) eqn:E2 |] |];
    cbn [fst snd]; qbool; split; auto; intro H; try discriminate;
    repeat split; auto.
Qed.

Lemma sellGate_spec (cfg : Config) (pos : Q) (place : bool) (a p : Q) :
  let r := sellGate cfg pos place a p in
  let held := adjustAmountToStepSize (JsMath.max 0 pos) (stepSize cfg) in
  (fst r = true ->
   place = true
   /\ ((snd r = a
        /\ (0 < a -> 0 <= pos ->
            a <= pos + JsMath.nullish (stepSize cfg) (1 # 100000000)))
       \/ (snd r = held
           /\ 0 <= pos
           /\ minAmount cfg <= held
           /\ JsMath.nullish (minNotionalValue cfg) 10 <= held * p)))
  /\ (snd r = a \/ snd r = 0 \/ snd r = held).
Proof.
  unfold sellGate.
  destruct place; cbn [andb]; [| cbn; split; auto; discriminate].
  destruct (Qlt_bool 0 a) eqn:E1;
    [| cbn; qbool; split; auto; intros _; split; auto; left; split; auto;
       intros; lra].
  destruct (Qle_bool 0 pos) eqn:E2;
    [| cbn; qbool; split; auto; intros _; split; auto; left; split; auto;
       intros; lra].
  destruct (Qlt_bool (pos + JsMath.nullish (stepSize cfg) (1 # 100000000)) a) eqn:E3.
  - destruct (_ || _)%bool eqn:E4; cbn [fst snd].
    + split; auto; discriminate.
    + apply orb_false_iff in E4. destruct E4 as [E4 E5]. qbool.
      split; auto; intros _; split; auto.
  - cbn [fst snd]. qbool. split; auto; intros _; split; auto.
Qed.

Lemma positionGate_spec (cfg : Config) (pos ab asell : Q) :
  let limit := JsMath.nullish (positionLimit cfg) 0 in
  let r := positionGate cfg pos ab asell in
  let placeBuy := fst (fst (fst r)) in
  let buyAmount := snd (fst (fst r)) in
  let placeSell := snd (fst r) in
  let sellAmount := snd r in
  (0 < limit -> limit <= pos -> placeBuy = false)
  /\ (0 < limit -> pos <= - limit -> placeSell = false)
  /\ (0 <= ab -> 0 <= buyAmount)
  /\ (0 <= asell -> 0 <= sellAmount).
Proof.
  unfold positionGate, JsMath.abs, JsMath.max.
  set (limit := JsMath.nullish (positionLimit cfg) 0).
  destruct (Qlt_bool 0 limit) eqn:E0; cbn [fst snd]; qbool;
    [| repeat split; intros; try lra; auto].
  destruct (Qle_bool 0 pos) eqn:Ep; qbool.
  - destruct (Qlt_bool 0 pos && Qle_bool limit pos)%bool eqn:E1; cbn [fst snd].
    + repeat split; intros; auto; try lra.
      destruct (Qle_bool pos asell) eqn:E2; qbool; lra.
    + assert (E3 : (Qlt_bool pos 0 && Qle_bool limit pos)%bool = false).
      { apply andb_false_iff. left. apply Qlt_bool_false. exact Ep. }
      rewrite E3. cbn [fst snd].
      apply andb_false_iff in E1.
      repeat split; intros; auto; try lra;
        destruct E1 as [E1 | E1]; qbool; lra.
  - destruct (Qlt_bool 0 pos && Qle_bool limit (- pos))%bool eqn:E1; cbn [fst snd].
    + apply andb_true_iff in E1. destruct E1 as [E1 _]. qbool. lra.
    + destruct (Qlt_bool pos 0 && Qle_bool limit (- pos))%bool eqn:E2; cbn [fst snd].
      * repeat split; intros; auto; try lra.
        destruct (Qle_bool (- pos) ab) eqn:E3; qbool; lra.
      * apply andb_false_iff in E2.
        repeat split; intros; auto; try lra;
          destruct E2 as [E2 | E2]; qbool; lra.
Qed.

Lemma adjustAmount_le (a : Q) (step : option Q) : adjustAmountToStepSize a step <= a.
Proof.
  destruct step as [s |]; cbn; [| apply Qle_refl].
  destruct (Qle_bool s 0) eqn:E; [apply Qle_refl |].
  qbool. apply floor_multiple_le. exact E.
Qed.


(** X13. Every quote a cycle plans to place with a positive amount is
    worth at least [minNotionalValue ?? 10]; a buy quote it plans to place
    never costs more than the free balance (unless its cost is not
    positive). *)
Theorem planned_quotes_pass_notional_and_balance :
  forall (cfg : Config) (snap : Snapshot) (buyQuote sellQuote : TargetQuote),
    planCycle cfg snap = Some (buyQuote, sellQuote) ->
    let minNotional := JsMath.nullish (minNotionalValue cfg) 10 in
    (shouldPlace buyQuote = true ->
     (0 < amount buyQuote -> minNotional <= amount buyQuote * price buyQuote)
     /\ (0 < amount buyQuote * price buyQuote ->
         amount buyQuote * price buyQuote <= balance snap))
    /\ (shouldPlace sellQuote = true ->
        0 < amount sellQuote -> minNotional <= amount sellQuote * price sellQuote).
Proof.
  intros cfg snap bq sq Hplan minNotional. subst minNotional.
  destruct (planCycle_stages cfg snap bq sq Hplan)
    as (ob & tick & pB & pS & pB1 & pS1 & aB & aS & aB1 & aS1
        & _ & _ & _ & _ & En1 & En2 & Eb & Es).
  split.
  - intro Hp.
    destruct (balanceGate_spec (balance snap) pB1 aB1 (price bq)) as [Hb _].
    rewrite Eb in Hb. cbn [fst snd] in Hb. destruct (Hb Hp) as [Hp1 [Ea Hcost]].
    destruct (notionalGate_spec cfg pB (adjustAmountToStepSize aB (stepSize cfg))
                (price bq)) as [Hn _].
    rewrite En1 in Hn. cbn [fst snd] in Hn. destruct (Hn Hp1) as [_ [Ea1 Hnot]].
    rewrite Ea, Ea1 in *. split; [exact Hnot |].
    intro Hc. destruct Hcost as [Hc1 | Hc1]; [exact Hc1 | lra].
  - intros Hp Ha.
    destruct (sellGate_spec cfg (JsMath.nullish (position snap) 0) pS1 aS1 (price sq))
      as [Hs _].
    rewrite Es in Hs. cbn [fst snd] in Hs. destruct (Hs Hp) as [Hp1 Hcase].
    destruct Hcase as [[Ea _] | [Ea [_ [_ Hnot]]]].
    + destruct (notionalGate_spec cfg pS (adjustAmountToStepSize aS (stepSize cfg))
                  (price sq)) as [Hn _].
      rewrite En2 in Hn. cbn [fst snd] in Hn. destruct (Hn Hp1) as [_ [Ea1 Hnot]].
      rewrite Ea, Ea1 in *. apply Hnot. exact Ha.
    + rewrite Ea. exact Hnot.
Qed.

Lemma planned_quotes_pass_notional_and_balance_witness :
  match planCycle quotingConfig (mkSnapshot (Some exampleBook) 1000 (Some (1 # 2))) with
  | Some (buyQuote, sellQuote) =>
      10 <= amount buyQuote * price buyQuote
      /\ amount buyQuote * price buyQuote <= 1000
      /\ 10 <= amount sellQuote * price sellQuote
  | None => False
  end.
Proof.
  destruct (planCycle quotingConfig (mkSnapshot (Some exampleBook) 1000 (Some (1 # 2))))
    as [[bq sq] |] eqn:E; [| vm_compute in E; discriminate E].
  destruct (planned_quotes_pass_notional_and_balance quotingConfig _ bq sq E)
    as [Hb Hs].
  vm_compute in E. inversion E. subst bq sq. cbn [shouldPlace amount price] in *.
  destruct (Hb eq_refl) as [H1 H2].
  split; [apply H1; reflexivity |].
  split; [apply H2; reflexivity | apply Hs; reflexivity].
Defined.

(** X14. While the position is flat or long, a sell quote the cycle plans
    to place never exceeds the position held plus the tolerance
    [stepSize ?? 0.00000001] (taken non-negative). *)
Theorem planned_sell_within_position :
  forall (cfg : Config) (snap : Snapshot) (buyQuote sellQuote : TargetQuote),
    planCycle cfg snap = Some (buyQuote, sellQuote) ->
    let held := JsMath.nullish (position snap) 0 in
    let tolerance := JsMath.nullish (stepSize cfg) (1 # 100000000) in
    0 <= held ->
    0 <= tolerance ->
    shouldPlace sellQuote = true ->
    amount sellQuote <= held + tolerance.
Proof.
  intros cfg snap bq sq Hplan held tolerance Hh Ht Hp.
  destruct (planCycle_stages cfg snap bq sq Hplan)
    as (ob & tick & pB & pS & pB1 & pS1 & aB & aS & aB1 & aS1
        & _ & _ & _ & _ & _ & _ & _ & Es).
  destruct (sellGate_spec cfg held pS1 aS1 (price sq)) as [Hs _].
  fold held in Es. rewrite Es in Hs. cbn [fst snd] in Hs.
  destruct (Hs Hp) as [_ [[Ea Hle] | [Ea _]]].
  - rewrite Ea. destruct (Qlt_le_dec 0 aS1) as [Hpos | Hneg].
    + apply Hle; assumption.
    + lra.
  - rewrite Ea.
    pose proof (adjustAmount_le (JsMath.max 0 held) (stepSize cfg)) as Hadj.
    assert (Em : JsMath.max 0 held <= held).
    { unfold JsMath.max. destruct (Qle_bool held 0) eqn:E; qbool; lra. }
    lra.
Qed.

Lemma planned_sell_within_position_witness :
  match planCycle quotingConfig (mkSnapshot (Some exampleBook) 1000 (Some (1 # 2))) with
  | Some (buyQuote, sellQuote) => amount sellQuote <= (1 # 2) + (1 # 1000)
  | None => False
  end.
Proof.
  destruct (planCycle quotingConfig (mkSnapshot (Some exampleBook) 1000 (Some (1 # 2))))
    as [[bq sq] |] eqn:E; [| vm_compute in E; discriminate E].
  pose proof (planned_sell_within_position quotingConfig _ bq sq E) as H.
  vm_compute in E. inversion E. subst bq sq. clear E.
  apply H; [qclosed | qclosed | reflexivity].
Defined.

(** X15. The hard position limit: with a positive [positionLimit], a long
    position at or beyond the limit forbids the buy quote and a short
    position at or beyond it forbids the sell quote, whatever the balance
    and the liquidity. *)
Theorem position_limit_forbids_growing_side :
  forall (cfg : Config) (snap : Snapshot) (buyQuote sellQuote : TargetQuote),
    planCycle cfg snap = Some (buyQuote, sellQuote) ->
    let limit := JsMath.nullish (positionLimit cfg) 0 in
    let held := JsMath.nullish (position snap) 0 in
    0 < limit ->
    (limit <= held -> shouldPlace buyQuote = false)
    /\ (held <= - limit -> shouldPlace sellQuote = false).
Proof.
  intros cfg snap bq sq Hplan limit held Hl.
  destruct (planCycle_stages cfg snap bq sq Hplan)
    as (ob & tick & pB & pS & pB1 & pS1 & aB & aS & aB1 & aS1
        & _ & _ & _ & Eg & En1 & En2 & Eb & Es).
  match type of Eg with
  | positionGate _ _ ?ab ?asell = _ =>
      destruct (positionGate_spec cfg held ab asell) as [Hbuy [Hsell _]]
  end.
  fold held in Eg, Es. rewrite Eg in Hbuy, Hsell. cbn [fst snd] in Hbuy, Hsell.
  split; intro H.
  - specialize (Hbuy Hl H). subst pB.
    destruct (shouldPlace bq) eqn:E; [| reflexivity].
    destruct (balanceGate_spec (balance snap) pB1 aB1 (price bq)) as [Hb _].
    rewrite Eb in Hb. cbn [fst snd] in Hb. destruct (Hb eq_refl) as [Hp1 _].
    destruct (notionalGate_spec cfg false (adjustAmountToStepSize aB (stepSize cfg))
                (price bq)) as [Hn _].
    rewrite En1 in Hn. cbn [fst snd] in Hn. destruct (Hn Hp1) as [Hf _].
    discriminate Hf.
  - specialize (Hsell Hl H). subst pS.
    destruct (shouldPlace sq) eqn:E; [| reflexivity].
    destruct (sellGate_spec cfg held pS1 aS1 (price sq)) as [Hs _].
    rewrite Es in Hs. cbn [fst snd] in Hs. destruct (Hs eq_refl) as [Hp1 _].
    destruct (notionalGate_spec cfg false (adjustAmountToStepSize aS (stepSize cfg))
                (price sq)) as [Hn _].
    rewrite En2 in Hn. cbn [fst snd] in Hn. destruct (Hn Hp1) as [Hf _].
    discriminate Hf.
Qed.

Lemma position_limit_forbids_growing_side_witness :
  match planCycle quotingConfig (mkSnapshot (Some exampleBook) 1000 (Some 2)) with
  | Some (buyQuote, sellQuote) => shouldPlace buyQuote = false
  | None => False
  end.
Proof.
  destruct (planCycle quotingConfig (mkSnapshot (Some exampleBook) 1000 (Some 2)))
    as [[bq sq] |] eqn:E; [| vm_compute in E; discriminate E].
  destruct (position_limit_forbids_growing_side quotingConfig _ bq sq E eq_refl)
    as [H _].
  clear E. apply H. qclosed.
Defined.




(** ** The constructor's check of the skew settings *)

Lemma skewedPrices_without_skew (cfg : Config) (ib isell spread position : Q) :
  (Qlt_bool 0 (inventorySkewIntensity cfg)
   && Qlt_bool 0 (JsMath.nullish (positionLimit cfg) 0))%bool = false ->
  skewedPrices (withSkewIntensity cfg 0) ib isell spread position
  = skewedPrices cfg ib isell spread position.
Proof.
  intro H. unfold skewedPrices. rewrite H. reflexivity.
Qed.

Lemma planCycle_without_skew (cfg : Config) (snap : Snapshot) :
  (Qlt_bool 0 (inventorySkewIntensity cfg)
   && Qlt_bool 0 (JsMath.nullish (positionLimit cfg) 0))%bool = false ->
  planCycle (withSkewIntensity cfg 0) snap = planCycle cfg snap.
Proof.
  intro H.
  assert (Ep : planPrices (withSkewIntensity cfg 0) snap = planPrices cfg snap).
  { unfold planPrices.
    destruct (orderBook snap) as [ob |]; [| reflexivity].
    destruct (OrderBookAnalyzer.nonEmpty (bids ob)
              && OrderBookAnalyzer.nonEmpty (asks ob))%bool; [| reflexivity].
    change (orderBookDepthLevels (withSkewIntensity cfg 0))
      with (orderBookDepthLevels cfg).
    destruct (OrderBookAnalyzer.calculateDepthMidPrice _ _) as [mid |]; [| reflexivity].
    change (targetSpread (withSkewIntensity cfg 0) mid) with (targetSpread cfg mid).
    rewrite (skewedPrices_without_skew cfg _ _ _ _ H).
    reflexivity. }
  unfold planCycle. rewrite Ep. reflexivity.
Qed.

Lemma validateSkewConfig_cases (cfg : Config) :
  validateSkewConfig cfg = cfg
  \/ (validateSkewConfig cfg = withSkewIntensity cfg 0
      /\ (Qlt_bool 0 (inventorySkewIntensity cfg)
          && Qlt_bool 0 (JsMath.nullish (positionLimit cfg) 0))%bool = false).
Proof.
  unfold validateSkewConfig.
  destruct (Qlt_bool (inventorySkewIntensity cfg) 0) eqn:E1.
  - right. cbn. rewrite andb_false_r. split; [reflexivity |].
    qbool. apply andb_false_iff. left. apply Qlt_bool_false. lra.
  - destruct (_ && _)%bool eqn:E2; [| left; reflexivity].
    right. split; [reflexivity |].
    apply andb_true_iff in E2. destruct E2 as [E2 _]. qbool.
    apply andb_false_iff. right. apply Qlt_bool_false. exact E2.
Qed.

(** X17. The constructor's check leaves an intensity that is not negative
    and is positive only with a positive [positionLimit]; it changes no
    other setting, and it never changes what a cycle does: a cycle run with
    the checked configuration is the cycle run with the given one. *)
Theorem skew_check_keeps_cycles :
  forall (cfg : Config),
    let checked := validateSkewConfig cfg in
    0 <= inventorySkewIntensity checked
    /\ (0 < inventorySkewIntensity checked ->
        0 < JsMath.nullish (positionLimit checked) 0)
    /\ withSkewIntensity checked (inventorySkewIntensity cfg) = withSkewIntensity cfg
         (inventorySkewIntensity cfg)
    /\ validateSkewConfig checked = checked
    /\ (forall venue fetched w,
          runCycle checked venue fetched w = runCycle cfg venue fetched w).
Proof.
  intro cfg. cbv zeta.
  assert (Hint : 0 <= inventorySkewIntensity (validateSkewConfig cfg)
                 /\ (0 < inventorySkewIntensity (validateSkewConfig cfg) ->
                     0 < JsMath.nullish (positionLimit (validateSkewConfig cfg)) 0)).
  { unfold validateSkewConfig.
    destruct (Qlt_bool (inventorySkewIntensity cfg) 0) eqn:E1.
    - cbn. rewrite andb_false_r. cbn.
      split; [apply Qle_refl | intro H; discriminate H].
    - destruct (_ && _)%bool eqn:E2.
      + cbn. split; [apply Qle_refl | intro H; discriminate H].
      + qbool. split; [exact E1 |]. intro H.
        apply andb_false_iff in E2. destruct E2 as [E2 | E2]; qbool; [exact E2 | lra]. }
  split; [apply Hint |]. split; [apply Hint |].
  split.
  { destruct (validateSkewConfig_cases cfg) as [-> | [-> _]]; reflexivity. }
  split.
  { destruct Hint as [H0 H1]. unfold validateSkewConfig at 1.
    apply Qlt_bool_false in H0. rewrite H0.
    destruct (_ && _)%bool eqn:E; [| reflexivity].
    apply andb_true_iff in E. destruct E as [E1 E2]. qbool.
    specialize (H1 E2). exfalso. lra. }
  intros venue fetched w.
  destruct (validateSkewConfig_cases cfg) as [-> | [-> H]]; [reflexivity |].
  unfold runCycle.
  destruct fetched as [snap | error]; [| reflexivity].
  unfold cycleBody. rewrite (planCycle_without_skew cfg snap H). reflexivity.
Qed.

Lemma skew_check_keeps_cycles_witness :
  0 < JsMath.nullish (positionLimit (validateSkewConfig exampleConfig)) 0.
Proof.
  destruct (skew_check_keeps_cycles exampleConfig) as [_ [H _]].
  apply H. reflexivity.
Defined.

Example skew_check_runs :
  inventorySkewIntensity
    (validateSkewConfig (withSkewIntensity exampleConfig (- (1 # 2)))) == 0
  /\ inventorySkewIntensity (validateSkewConfig exampleConfig) == 1 # 2.
Proof. split; reflexivity. Qed.

(** ** Reconciliation of one side, case by case *)

Section Preserves.

Variable R : Strategy -> Strategy -> Prop.
Hypothesis R_refl : forall s, R s s.
Hypothesis R_trans : forall s1 s2 s3, R s1 s2 -> R s2 s3 -> R s1 s3.

Lemma preserves_still {A : Type} (m : M A) :
  (forall w, strategy (snd (m w)) = strategy w) -> preserves R m.
Proof. intros H w. rewrite H. apply R_refl. Qed.

Lemma preserves_ret {A : Type} (a : A) : preserves R (ret a).
Proof. apply preserves_still. reflexivity. Qed.

Lemma preserves_throw {A : Type} (e : JsError) : preserves R (@throw A e).
Proof. apply preserves_still. reflexivity. Qed.

Lemma preserves_gets {A : Type} (f : Strategy -> A) : preserves R (gets f).
Proof. apply preserves_still. reflexivity. Qed.

Lemma preserves_call {A : Type} (ev : Event) (answer : list Event -> Result A) :
  preserves R (call ev answer).
Proof. apply preserves_still. reflexivity. Qed.

Lemma preserves_bind {A B : Type} (m : M A) (k : A -> M B) :
  preserves R m -> (forall a, preserves R (k a)) -> preserves R (bind m k).
Proof.
  intros Hm Hk w. unfold bind. specialize (Hm w).
  destruct (m w) as [[a | err] w1]; cbn [snd] in *; [| exact Hm].
  eapply R_trans; [exact Hm | apply Hk].
Qed.

Lemma preserves_tryCatch {A : Type} (m : M A) (h : JsError -> M A) :
  preserves R m -> (forall e, preserves R (h e)) -> preserves R (tryCatch m h).
Proof.
  intros Hm Hh w. unfold tryCatch. specialize (Hm w).
  destruct (m w) as [[a | err] w1]; cbn [snd] in *; [exact Hm |].
  eapply R_trans; [exact Hm | apply Hh].
Qed.

Lemma preserves_tryFinally {A : Type} (m : M A) (c : M unit) :
  preserves R m -> preserves R c -> preserves R (tryFinally m c).
Proof.
  intros Hm Hc w. unfold tryFinally. specialize (Hm w).
  destruct (m w) as [r w1]; cbn [snd] in *. specialize (Hc w1).
  destruct (c w1) as [[u | err] w2]; cbn [snd] in *;
    eapply R_trans; eassumption.
Qed.

End Preserves.

Lemma returns_tryFinally {A : Type} (m : M A) (c : M unit) :
  returns m -> returns c -> returns (tryFinally m c).
Proof.
  intros Hm Hc w. unfold tryFinally. destruct (Hm w) as [a Ea].
  destruct (m w) as [r w1]. cbn [fst] in Ea. subst r.
  destruct (Hc w1) as [u Eu]. destruct (c w1) as [[u' | err] w2];
    cbn [fst] in Eu; [| discriminate].
  exists a. reflexivity.
Qed.

Lemma returns_manageOrder (cfg : Config) (venue : Venue) (side : Side)
    (shouldPlace : bool) (targetAmount targetPrice : Q) :
  returns (manageOrder cfg venue side shouldPlace targetAmount targetPrice).
Proof.
  assert (Hclear : forall id, returns (cancelAndClear venue side id)).
  { intro id. unfold cancelAndClear. apply returns_tryFinally.
    - apply returns_tryCatch. intros _. apply returns_ret.
    - apply returns_modify. }
  assert (Hplace : forall p sp a, returns (placeIfNeeded cfg venue side p sp a targetPrice)).
  { intros p sp a. unfold placeIfNeeded. destruct (_ && _)%bool.
    - apply returns_tryCatch. intros _. apply returns_modify.
    - destruct p; [apply returns_modify | apply returns_ret]. }
  unfold manageOrder. apply returns_bind; [apply returns_gets |].
  intro currentId. destruct (tracked currentId) as [orderId |]; [| apply Hplace].
  apply returns_bind; [| intro; apply Hplace].
  destruct (if Qlt_bool targetAmount (minAmount cfg) then false else shouldPlace).
  - unfold editOrReplace. apply returns_tryCatch. intro e.
    destruct (_ && _)%bool; [apply returns_ret |].
    destruct (_ || _)%bool.
    + apply returns_bind; [apply returns_modify | intros _; apply returns_ret].
    + apply returns_bind; [apply Hclear | intros _; apply returns_ret].
  - apply returns_bind; [apply Hclear | intros _; apply returns_ret].
Qed.

Lemma sameElsewhere_refl (side : Side) (s : Strategy) : sameElsewhere side s s.
Proof. repeat split. Qed.

Lemma sameElsewhere_trans (side : Side) (s1 s2 s3 : Strategy) :
  sameElsewhere side s1 s2 -> sameElsewhere side s2 s3 -> sameElsewhere side s1 s3.
Proof.
  intros [A1 [B1 C1]] [A2 [B2 C2]]. repeat split; congruence.
Qed.

Lemma preserves_setOrderId (side : Side) (v : option string) :
  preserves (sameElsewhere side) (setOrderId side v).
Proof. intro w. destruct side; repeat split. Qed.

Lemma preserves_manageOrder (cfg : Config) (venue : Venue) (side : Side)
    (shouldPlace : bool) (targetAmount targetPrice : Q) :
  preserves (sameElsewhere side)
    (manageOrder cfg venue side shouldPlace targetAmount targetPrice).
Proof.
  pose proof (sameElsewhere_refl side) as Rr.
  pose proof (sameElsewhere_trans side) as Rt.
  assert (Hcancel : forall id, preserves (sameElsewhere side) (cancelOrder venue id)).
  { intro id. unfold cancelOrder. apply preserves_tryCatch; auto.
    - apply preserves_bind; auto; [apply preserves_call; auto |].
      intros _. apply preserves_ret; auto.
    - intro e. destruct (_ || _)%bool; apply preserves_ret; auto. }
  assert (Hclear : forall id, preserves (sameElsewhere side) (cancelAndClear venue side id)).
  { intro id. unfold cancelAndClear. apply preserves_tryFinally; auto.
    - apply preserves_tryCatch; auto; [| intros _; apply preserves_ret; auto].
      apply preserves_bind; auto. intros _. apply preserves_ret; auto.
    - apply preserves_setOrderId. }
  assert (Hplace : forall p sp a,
             preserves (sameElsewhere side)
               (placeIfNeeded cfg venue side p sp a targetPrice)).
  { intros p sp a. unfold placeIfNeeded. destruct (_ && _)%bool.
    - apply preserves_tryCatch; auto; [| intros _; apply preserves_setOrderId].
      apply preserves_bind; auto.
      + unfold createLimitOrder. apply preserves_bind; auto;
          [apply preserves_call; auto |].
        intros [o |]; [apply preserves_ret | apply preserves_throw]; auto.
      + intro o. destruct (tracked (order_id o)); apply preserves_setOrderId.
    - destruct p; [apply preserves_setOrderId | apply preserves_ret; auto]. }
  unfold manageOrder. apply preserves_bind; auto; [apply preserves_gets; auto |].
  intro currentId. destruct (tracked currentId) as [orderId |]; [| apply Hplace].
  apply preserves_bind; auto.
  destruct (if Qlt_bool targetAmount (minAmount cfg) then false else shouldPlace).
  - unfold editOrReplace. apply preserves_tryCatch; auto.
    + destruct (has_editOrder venue).
      * apply preserves_bind; auto; [| intros _; apply preserves_ret; auto].
        unfold editOrder. destruct (negb _); [apply preserves_throw; auto |].
        apply preserves_bind; auto; [apply preserves_call; auto |].
        intros [o |]; [apply preserves_ret | apply preserves_throw]; auto.
      * apply preserves_bind; auto. intros _.
        apply preserves_bind; auto; [apply preserves_setOrderId |].
        intros _. apply preserves_ret; auto.
    + intro e. destruct (_ && _)%bool; [apply preserves_ret; auto |].
      destruct (_ || _)%bool.
      * apply preserves_bind; auto; [apply preserves_setOrderId |].
        intros _. apply preserves_ret; auto.
      * apply preserves_bind; auto. intros _. apply preserves_ret; auto.
  - apply preserves_bind; auto. intros _. apply preserves_ret; auto.
Qed.

(** X18. [manageOrder] never throws, whatever the exchange answers, and it
    touches nothing but its own side's id: the other side's id, the traded
    volume and the trade watermark are as they were. *)
Theorem manageOrder_returns_and_keeps_other_side :
  forall (cfg : Config) (venue : Venue) (side : Side) (shouldPlace : bool)
         (targetAmount targetPrice : Q) (w : World),
    let r := manageOrder cfg venue side shouldPlace targetAmount targetPrice w in
    fst r = Returned tt
    /\ orderIdOf (opposite side) (strategy (snd r)) = orderIdOf (opposite side) (strategy w)
    /\ totalTradedBaseVolume (strategy (snd r)) = totalTradedBaseVolume (strategy w)
    /\ lastTradeTimestamp (strategy (snd r)) = lastTradeTimestamp (strategy w).
Proof.
  intros cfg venue side shouldPlace targetAmount targetPrice w r. subst r.
  split.
  - destruct (returns_manageOrder cfg venue side shouldPlace targetAmount targetPrice w)
      as [[] E].
    exact E.
  - apply (preserves_manageOrder cfg venue side shouldPlace targetAmount targetPrice w).
Qed.

(** Unfold one run of [manageOrder] down to the answers of the exchange. *)
Ltac unfold_manageOrder :=
  unfold manageOrder, editOrReplace, cancelAndClear, placeIfNeeded, editOrder,
    cancelOrder, createLimitOrder, setOrderId;
  unfold tryFinally, tryCatch, bind, gets, modify, call, ret, throw;
  cbn [fst snd strategy calls].

Ltac run_simpl :=
  cbn [fst snd strategy calls order_id andb orb negb].

Ltac answer_cases :=
  run_simpl;
  repeat match goal with
    | |- context [match exchange_cancelOrder ?v ?h with _ => _ end] =>
        destruct (exchange_cancelOrder v h) as [[] | ?error]; run_simpl
    | |- context [match exchange_createLimitOrder ?v ?h with _ => _ end] =>
        destruct (exchange_createLimitOrder v h) as [[[?newId] |] | ?error]; run_simpl
    | |- context [match tracked ?o with _ => _ end] =>
        destruct (tracked o); run_simpl
    | |- context [if ?b then _ else _] => destruct b; run_simpl
    end.

(** X19. On a side that tracks no order, [manageOrder] sends exactly one
    call, the placement at the target amount and price, when placing is
    allowed and the amount reaches [minAmount]; the side then tracks the id
    of the returned order if it has one, and nothing if the placement
    failed.  Otherwise it sends nothing and the side tracks nothing. *)
Theorem manageOrder_untracked :
  forall (cfg : Config) (venue : Venue) (side : Side) (shouldPlace : bool)
         (targetAmount targetPrice : Q) (w : World),
    tracked (orderIdOf side (strategy w)) = None ->
    let r := manageOrder cfg venue side shouldPlace targetAmount targetPrice w in
    let placement := CallCreateLimitOrder side targetAmount targetPrice in
    if (shouldPlace && Qle_bool (minAmount cfg) targetAmount)%bool
    then
      calls (snd r) = (calls w ++ [placement])%list
      /\ orderIdOf side (strategy (snd r))
         = match exchange_createLimitOrder venue (calls w ++ [placement]) with
           | Returned (Some order) => tracked (order_id order)
           | _ => None
           end
    else
      calls (snd r) = calls w /\ orderIdOf side (strategy (snd r)) = None.
Proof.
  intros cfg venue side shouldPlace targetAmount targetPrice w Ht r placement.
  subst r placement. unfold manageOrder, bind, gets. cbn [fst snd]. rewrite Ht.
  unfold placeIfNeeded. cbn [andb].
  destruct (shouldPlace && Qle_bool (minAmount cfg) targetAmount)%bool.
  - unfold createLimitOrder, setOrderId.
    unfold tryCatch, bind, modify, call, ret, throw. cbn [fst snd strategy calls].
    destruct (exchange_createLimitOrder venue _) as [[[newId] |] | error];
      cbn [fst snd strategy calls order_id];
      try destruct (tracked newId); destruct side; split; reflexivity.
  - unfold setOrderId, modify. destruct side; split; reflexivity.
Qed.

Lemma manageOrder_untracked_witness :
  calls (snd (manageOrder exampleConfig venueWithoutEdit buy true (1 # 100) 99
                (mkWorld initialStrategy [])))
  = [CallCreateLimitOrder buy (1 # 100) 99]
  /\ currentBuyOrderId
       (strategy (snd (manageOrder exampleConfig venueWithoutEdit buy true (1 # 100) 99
                         (mkWorld initialStrategy []))))
     = Some "new-1"%string.
Proof.
  exact (manageOrder_untracked exampleConfig venueWithoutEdit buy true (1 # 100) 99
           (mkWorld initialStrategy []) eq_refl).
Defined.

(** X20. The calls of [manageOrder] on a tracked order it may keep quoting
    (placing allowed, amount at least [minAmount]).  With [editOrder]: the
    edit alone when it succeeds or reports no change ("-5027"); the edit
    and a placement when the order is not found; the edit, a cancel and a
    placement on any other failure.  Without [editOrder]: a cancel and a
    placement.  No other call is ever sent. *)
Theorem manageOrder_tracked_calls :
  forall (cfg : Config) (venue : Venue) (side : Side)
         (targetAmount targetPrice : Q) (w : World) (orderId : string),
    tracked (orderIdOf side (strategy w)) = Some orderId ->
    minAmount cfg <= targetAmount ->
    let edit := CallEditOrder orderId side targetAmount targetPrice in
    let cancel := CallCancelOrder orderId in
    let placement := CallCreateLimitOrder side targetAmount targetPrice in
    calls (snd (manageOrder cfg venue side true targetAmount targetPrice w))
    = (calls w ++
       if has_editOrder venue then
         match exchange_editOrder venue (calls w ++ [edit]) with
         | Returned (Some _) => [edit]
         | Returned None => [edit; cancel; placement]
         | Thrown error =>
             if (instanceOf error ExchangeError && includes (message error) "-5027")%bool
             then [edit]
             else if (instanceOf error OrderNotFound
                      || includes (message error) "Unknown order")%bool
             then [edit; placement]
             else [edit; cancel; placement]
         end
       else [cancel; placement])%list.
Proof.
  intros cfg venue side targetAmount targetPrice w orderId Ht Hmin edit cancel placement.
  subst edit cancel placement.
  assert (E1 : Qlt_bool targetAmount (minAmount cfg) = false)
    by (apply Qlt_bool_false; exact Hmin).
  assert (E2 : Qle_bool (minAmount cfg) targetAmount = true)
    by (apply Qle_bool_true; exact Hmin).
  unfold manageOrder, bind, gets. cbn [fst snd]. rewrite Ht, E1.
  unfold editOrReplace, cancelAndClear, placeIfNeeded, editOrder, cancelOrder,
    createLimitOrder, setOrderId.
  rewrite E2.
  unfold tryFinally, tryCatch, bind, modify, call, ret, throw.
  cbn [fst snd strategy calls].
  destruct (has_editOrder venue); cbn [negb fst snd strategy calls andb].
  - destruct (exchange_editOrder venue _) as [[o |] | error]; run_simpl.
    + reflexivity.
    + cbn. answer_cases; rewrite <- ?app_assoc; reflexivity.
    + destruct (instanceOf error ExchangeError && includes (message error) "-5027")%bool;
        cbn [fst snd strategy calls andb]; [reflexivity |].
      destruct (instanceOf error OrderNotFound
                || includes (message error) "Unknown order")%bool;
        cbn [fst snd strategy calls andb];
        answer_cases; rewrite <- ?app_assoc; reflexivity.
  - answer_cases; rewrite <- ?app_assoc; reflexivity.
Qed.

Lemma manageOrder_tracked_calls_witness :
  calls (snd (manageOrder exampleConfig venueRejectingEdit sell true (1 # 100) 101
                restingBoth))
  = [CallEditOrder "sell-1" sell (1 # 100) 101; CallCancelOrder "sell-1";
     CallCreateLimitOrder sell (1 # 100) 101].
Proof.
  exact (manageOrder_tracked_calls exampleConfig venueRejectingEdit sell (1 # 100) 101
           restingBoth "sell-1" eq_refl ltac:(discriminate)).
Defined.

Ltac finish_placement E :=
  run_simpl;
  try match goal with
    | |- context [tracked ?o] =>
        let Et := fresh "Et" in destruct (tracked o) eqn:Et; run_simpl
    end;
  rewrite last_last; cbn [isPlacement]; rewrite E; run_simpl;
  try match goal with
    | H : tracked ?o = _ |- context [tracked ?o] => rewrite H
    end;
  match goal with s : Side |- _ => destruct s end; reflexivity.

(** X21. What the side tracks after [manageOrder] on a tracked order it may
    keep quoting: when the last call sent is not a placement (the edit
    succeeded or reported no change) the strategy is exactly as it was, the
    order still tracked; when it is a placement, the side tracks the id of
    the order that placement returned, and nothing if it failed. *)
Theorem manageOrder_tracked_id :
  forall (cfg : Config) (venue : Venue) (side : Side)
         (targetAmount targetPrice : Q) (w : World) (orderId : string),
    tracked (orderIdOf side (strategy w)) = Some orderId ->
    minAmount cfg <= targetAmount ->
    let r := manageOrder cfg venue side true targetAmount targetPrice w in
    if isPlacement (last (calls (snd r)) (CallCancelOrder orderId))
    then
      orderIdOf side (strategy (snd r))
      = match exchange_createLimitOrder venue (calls (snd r)) with
        | Returned (Some order) => tracked (order_id order)
        | _ => None
        end
    else strategy (snd r) = strategy w.
Proof.
  intros cfg venue side targetAmount targetPrice w orderId Ht Hmin r. subst r.
  assert (E1 : Qlt_bool targetAmount (minAmount cfg) = false)
    by (apply Qlt_bool_false; exact Hmin).
  assert (E2 : Qle_bool (minAmount cfg) targetAmount = true)
    by (apply Qle_bool_true; exact Hmin).
  unfold manageOrder, bind, gets. cbn [fst snd]. rewrite Ht, E1.
  unfold editOrReplace, cancelAndClear, placeIfNeeded, editOrder, cancelOrder,
    createLimitOrder, setOrderId.
  rewrite E2.
  unfold tryFinally, tryCatch, bind, modify, call, ret, throw.
  run_simpl.
  destruct (has_editOrder venue); run_simpl.
  - destruct (exchange_editOrder venue _) as [[o |] | error]; run_simpl.
    + rewrite last_last. reflexivity.
    + cbn [instanceOf errClass message]. run_simpl.
      destruct (includes "Cannot read properties of undefined" "Unknown order");
        run_simpl.
      * destruct (exchange_createLimitOrder venue _) as [[[newId] |] | error] eqn:E;
          finish_placement E.
      * destruct (exchange_cancelOrder venue _) as [[] | error]; run_simpl;
          try (destruct (_ || _)%bool; run_simpl);
          destruct (exchange_createLimitOrder venue _) as [[[newId] |] | error'] eqn:E;
          finish_placement E.
    + destruct (instanceOf error ExchangeError && includes (message error) "-5027")%bool;
        run_simpl; [rewrite last_last; reflexivity |].
      destruct (instanceOf error OrderNotFound
                || includes (message error) "Unknown order")%bool; run_simpl.
      * destruct (exchange_createLimitOrder venue _) as [[[newId] |] | error'] eqn:E;
          finish_placement E.
      * destruct (exchange_cancelOrder venue _) as [[] | error']; run_simpl;
          try (destruct (_ || _)%bool; run_simpl);
          destruct (exchange_createLimitOrder venue _) as [[[newId] |] | error''] eqn:E;
          finish_placement E.
  - destruct (exchange_cancelOrder venue _) as [[] | error']; run_simpl;
      try (destruct (_ || _)%bool; run_simpl);
      destruct (exchange_createLimitOrder venue _) as [[[newId] |] | error''] eqn:E;
      finish_placement E.
Qed.

Lemma manageOrder_tracked_id_witness :
  currentSellOrderId
    (strategy (snd (manageOrder exampleConfig venueRejectingEdit sell true (1 # 100) 101
                      restingBoth)))
  = Some "new-2"%string.
Proof.
  exact (manageOrder_tracked_id exampleConfig venueRejectingEdit sell (1 # 100) 101
           restingBoth "sell-1" eq_refl ltac:(discriminate)).
Defined.

(** X22. A tracked order that may not be quoted (placing forbidden, or the
    amount below [minAmount]) is cancelled: the cancel is the only call
    sent, and the side tracks nothing afterwards, also when the cancel
    fails. *)
Theorem manageOrder_tracked_forbidden :
  forall (cfg : Config) (venue : Venue) (side : Side) (shouldPlace : bool)
         (targetAmount targetPrice : Q) (w : World) (orderId : string),
    tracked (orderIdOf side (strategy w)) = Some orderId ->
    (shouldPlace && Qle_bool (minAmount cfg) targetAmount)%bool = false ->
    let r := manageOrder cfg venue side shouldPlace targetAmount targetPrice w in
    calls (snd r) = (calls w ++ [CallCancelOrder orderId])%list
    /\ orderIdOf side (strategy (snd r)) = None.
Proof.
  intros cfg venue side shouldPlace targetAmount targetPrice w orderId Ht Hno r.
  subst r.
  assert (E : (if Qlt_bool targetAmount (minAmount cfg) then false else shouldPlace)
              = false).
  { unfold Qlt_bool. destruct (Qle_bool (minAmount cfg) targetAmount); cbn [negb];
      [| reflexivity].
    rewrite andb_true_r in Hno. exact Hno. }
  unfold manageOrder, bind, gets. cbn [fst snd]. rewrite Ht, E.
  unfold cancelAndClear, cancelOrder, placeIfNeeded, setOrderId.
  unfold tryFinally, tryCatch, bind, modify, call, ret.
  run_simpl.
  destruct (exchange_cancelOrder venue _) as [[] | error]; run_simpl;
    try (destruct (_ || _)%bool; run_simpl);
    destruct side; split; reflexivity.
Qed.

Lemma manageOrder_tracked_forbidden_witness :
  calls (snd (manageOrder exampleConfig venueRejectingEdit sell false 1 101 restingBoth))
  = [CallCancelOrder "sell-1"]
  /\ currentSellOrderId
       (strategy (snd (manageOrder exampleConfig venueRejectingEdit sell false 1 101
                         restingBoth)))
     = None.
Proof.
  exact (manageOrder_tracked_forbidden exampleConfig venueRejectingEdit sell false 1 101
           restingBoth "sell-1" eq_refl eq_refl).
Defined.

(** ** Whole cycles *)

(** X23. In every state the strategy can reach from its construction, by
    any number of cycles with any fetch outcomes and any exchange
    behaviour, each tracked id is [null] or a non-empty string. *)
Theorem ids_well_formed_after_any_cycles :
  forall (cfg : Config) (venue : Venue) (fetches : list (Result Snapshot)),
    idsWellFormed
      (strategy (afterCycles cfg venue fetches (mkWorld initialStrategy []))).
Proof.
  intros cfg venue fetches.
  assert (H : forall w, idsWellFormed (strategy w) ->
                        idsWellFormed (strategy (afterCycles cfg venue fetches w))).
  { induction fetches as [| fetched rest IH]; intros w Hw; [exact Hw |].
    cbn [afterCycles]. apply IH. apply keepsIds_runCycle. exact Hw. }
  apply H. apply idsWellFormed_initially.
Qed.

(** X24. [runCycle] throws exactly when the fetches failed with an
    authentication error or with a rate-limit error.  When it throws it has
    sent nothing to the exchange and changed nothing: in particular resting
    orders are not cancelled.  On every other fetch failure it returns
    after running the stale-order cleanup. *)
Theorem runCycle_throws_iff :
  forall (cfg : Config) (venue : Venue) (fetched : Result Snapshot) (w : World),
    let r := runCycle cfg venue fetched w in
    let fatal error :=
      (instanceOf error AuthenticationError || instanceOf error RateLimitExceeded)%bool in
    ((exists e, fst r = Thrown e)
     <-> exists error, fetched = Thrown error /\ fatal error = true)
    /\ ((exists e, fst r = Thrown e) -> snd r = w)
    /\ (forall error, fetched = Thrown error -> fatal error = false ->
          r = cancelStaleOrdersIfNeeded venue w /\ fst r = Returned tt).
Proof.
  intros cfg venue fetched w r fatal. subst r fatal.
  destruct fetched as [snap | error].
  - rewrite runCycle_fetched.
    destruct (returns_cycleBody cfg venue snap w) as [[] E].
    split; [split |].
    + intros [e He]. rewrite E in He. discriminate.
    + intros [error [H _]]. discriminate.
    + split; [| intros error H; discriminate].
      intros [e He]. rewrite E in He. discriminate.
  - destruct (returns_cancelStaleOrdersIfNeeded venue w) as [[] Ec].
    unfold runCycle, tryCatch, throw.
    destruct error as [c msg].
    destruct c; cbn [instanceOf errClass orb fst snd];
      (split; [split |]);
      try (intros [e He]; rewrite Ec in He; discriminate);
      try (intros [error [H1 H2]]; inversion H1; subst; discriminate H2);
      try (intros _; eexists; reflexivity);
      try (intros _; eexists; split; reflexivity);
      (split;
       [first [ intros _; reflexivity
              | intros [e He]; rewrite Ec in He; discriminate ]
       | intros error H1 H2; inversion H1; subst;
         first [ discriminate H2 | split; [reflexivity | exact Ec] ] ]).
Qed.

Lemma runCycle_throws_iff_witness :
  runCycle exampleConfig venueRejectingEdit
    (Thrown (mkError NetworkError "timeout")) restingBoth
  = cancelStaleOrdersIfNeeded venueRejectingEdit restingBoth
  /\ snd (runCycle exampleConfig venueRejectingEdit
            (Thrown (mkError RateLimitExceeded "429")) restingBoth)
     = restingBoth.
Proof.
  destruct (runCycle_throws_iff exampleConfig venueRejectingEdit
              (Thrown (mkError NetworkError "timeout")) restingBoth) as [_ [_ H]].
  destruct (runCycle_throws_iff exampleConfig venueRejectingEdit
              (Thrown (mkError RateLimitExceeded "429")) restingBoth) as [H1 [H2 _]].
  split.
  - apply (H (mkError NetworkError "timeout")); reflexivity.
  - apply H2. apply H1. eexists. split; reflexivity.
Defined.

Lemma bind_returns {A B : Type} (m : M A) (k : A -> M B) (w : World) (a : A) :
  fst (m w) = Returned a -> bind m k w = k a (snd (m w)).
Proof.
  intro H. unfold bind. destruct (m w) as [[a' | err] w1]; cbn [fst snd] in *;
    [inversion H; reflexivity | discriminate].
Qed.

Lemma updateTradedVolume_calls (venue : Venue) (w : World) :
  calls (snd (updateTradedVolume venue w))
  = (calls w ++ [CallFetchMyTrades (lastTradeTimestamp (strategy w))])%list.
Proof.
  unfold updateTradedVolume, tryCatch, bind, gets, call, modify, ret.
  cbn [fst snd strategy calls].
  destruct (exchange_fetchMyTrades venue _) as [[[| t ts] |] | error];
    cbn [fst snd strategy calls]; try reflexivity.
  destruct (tradesLoop _ _ _ _) as [newVolume latest].
  destruct (Qlt_bool 0 newVolume); reflexivity.
Qed.

Lemma placementsOn_app (side : Side) (l1 l2 : list Event) :
  placementsOn side (l1 ++ l2) = (placementsOn side l1 + placementsOn side l2)%nat.
Proof. unfold placementsOn. rewrite filter_app, length_app. reflexivity. Qed.

Lemma tradeQueries_app (l1 l2 : list Event) :
  tradeQueries (l1 ++ l2) = (tradeQueries l1 + tradeQueries l2)%nat.
Proof. unfold tradeQueries. rewrite filter_app, length_app. reflexivity. Qed.

(** The calls of one side's reconciliation, counted. *)
Lemma orderCalls_counts (side : Side) (p : Q) (evs : list Event) :
  Forall (orderCallAt side p) evs ->
  placementsOn side evs = placements evs
  /\ placementsOn (opposite side) evs = 0%nat
  /\ tradeQueries evs = 0%nat.
Proof.
  induction 1 as [| ev evs Hev _ IH]; [repeat split |].
  destruct IH as [I1 [I2 I3]].
  unfold placementsOn, placements, tradeQueries in *.
  destruct ev as [id s a q | id | s a q | since]; cbn in Hev.
  - destruct side; cbn; repeat split; assumption.
  - destruct side; cbn; repeat split; assumption.
  - destruct Hev as [Es _]. subst s.
    destruct side; cbn in *; rewrite I1; repeat split; assumption.
  - contradiction.
Qed.

(** X25. A cycle whose fetches succeeded sends at most one placement per
    side, and queries the trade history exactly once when it planned
    quotes and not at all when planning was abandoned. *)
Theorem cycle_places_once_per_side :
  forall (cfg : Config) (venue : Venue) (snap : Snapshot) (w : World),
    exists evs,
      calls (snd (runCycle cfg venue (Returned snap) w)) = (calls w ++ evs)%list
      /\ (placementsOn buy evs <= 1)%nat
      /\ (placementsOn sell evs <= 1)%nat
      /\ tradeQueries evs = match planCycle cfg snap with
                            | Some _ => 1%nat
                            | None => 0%nat
                            end.
Proof.
  intros cfg venue snap w. rewrite runCycle_fetched. unfold cycleBody.
  destruct (planCycle cfg snap) as [[bq sq] |].
  - set (mB := manageOrder cfg venue buy (shouldPlace bq) (amount bq) (price bq)).
    set (mS := manageOrder cfg venue sell (shouldPlace sq) (amount sq) (price sq)).
    assert (HB : forall w0, tryCatch mB (fun _ => ret tt) w0 = mB w0).
    { intro w0. apply tryCatch_returns. apply returns_manageOrder. }
    assert (HS : forall w0, tryCatch mS (fun _ => ret tt) w0 = mS w0).
    { intro w0. apply tryCatch_returns. apply returns_manageOrder. }
    destruct (returns_manageOrder cfg venue buy (shouldPlace bq) (amount bq) (price bq) w)
      as [[] EB]. fold mB in EB.
    destruct (returns_manageOrder cfg venue sell (shouldPlace sq) (amount sq) (price sq)
                (snd (mB w))) as [[] ES]. fold mS in ES.
    rewrite (bind_returns _ _ w tt) by (rewrite HB; exact EB).
    rewrite HB.
    rewrite (bind_returns _ _ (snd (mB w)) tt) by (rewrite HS; exact ES).
    rewrite HS.
    destruct (emits_manageOrder cfg venue (orderCallAt buy (price bq)) buy
                (shouldPlace bq) (amount bq) (price bq) (fun _ H => H) w)
      as [e1 [E1 [F1 P1]]]. fold mB in E1.
    destruct (emits_manageOrder cfg venue (orderCallAt sell (price sq)) sell
                (shouldPlace sq) (amount sq) (price sq) (fun _ H => H) (snd (mB w)))
      as [e2 [E2 [F2 P2]]]. fold mS in E2.
    destruct (orderCalls_counts buy _ e1 F1) as [B1 [B2 B3]].
    destruct (orderCalls_counts sell _ e2 F2) as [S1 [S2 S3]].
    cbn [opposite] in B2, S2.
    exists (e1 ++ e2 ++ [CallFetchMyTrades (lastTradeTimestamp (strategy (snd (mS (snd (mB w))))))])%list.
    rewrite updateTradedVolume_calls, E2, E1, <- !app_assoc.
    split; [reflexivity |].
    rewrite !placementsOn_app, !tradeQueries_app, B1, B2, B3, S1, S2, S3.
    cbn. repeat split; lia.
  - destruct (emits_cancelStaleOrdersIfNeeded venue (fun ev => isCancel ev = true)
                (fun _ => eq_refl) w) as [evs [E [F _]]].
    exists evs. split; [exact E |].
    assert (H : placementsOn buy evs = 0%nat /\ placementsOn sell evs = 0%nat
                /\ tradeQueries evs = 0%nat).
    { clear E. induction F as [| ev evs Hev _ IH]; [repeat split |].
      destruct IH as [I1 [I2 I3]].
      unfold placementsOn, tradeQueries in *.
      destruct ev; cbn in Hev; try discriminate. cbn. repeat split; assumption. }
    destruct H as [H1 [H2 H3]]. rewrite H1, H2, H3. repeat split; lia.
Qed.

(** ** Traded volume across updates *)

Lemma tradesLoop_latest (watermark : Z) (trades : list Trade) :
  forall (newVolume : Q) (latest : Z),
    (watermark <= latest)%Z ->
    (latest <= snd (tradesLoop watermark trades newVolume latest))%Z
    /\ Forall (stampedAtMost (snd (tradesLoop watermark trades newVolume latest))) trades
    /\ (snd (tradesLoop watermark trades newVolume latest) = latest
        \/ exists t, In t trades
                     /\ trade_timestamp t
                        = Some (snd (tradesLoop watermark trades newVolume latest))).
Proof.
  induction trades as [| t trades IH]; intros newVolume latest Hw.
  - cbn. split; [lia |]. split; [constructor | left; reflexivity].
  - cbn [tradesLoop]. unfold stampedAtMost at 1.
    destruct (trade_timestamp t) as [ts |] eqn:Et.
    + destruct (watermark <? ts)%Z eqn:E.
      * apply Z.ltb_lt in E.
        destruct (IH (newVolume + trade_amount t) (Z.max latest ts)) as [H1 [H2 H3]];
          [lia |].
        split; [lia |]. split.
        { constructor; [unfold stampedAtMost; rewrite Et; lia | exact H2]. }
        destruct H3 as [H3 | [t' [Hin Ht']]].
        { destruct (Z.max_spec latest ts) as [[_ Em] | [_ Em]].
          - right. exists t. split; [left; reflexivity |]. rewrite Et, H3, Em.
            reflexivity.
          - left. rewrite H3. exact Em. }
        { right. exists t'. split; [right; exact Hin | exact Ht']. }
      * apply Z.ltb_ge in E.
        destruct (IH newVolume latest Hw) as [H1 [H2 H3]].
        split; [exact H1 |]. split.
        { constructor; [unfold stampedAtMost; rewrite Et; lia | exact H2]. }
        destruct H3 as [H3 | [t' [Hin Ht']]]; [left; exact H3 |].
        right. exists t'. split; [right; exact Hin | exact Ht'].
    + destruct (IH newVolume latest Hw) as [H1 [H2 H3]].
      split; [exact H1 |]. split.
      { constructor; [unfold stampedAtMost; rewrite Et; exact I | exact H2]. }
      destruct H3 as [H3 | [t' [Hin Ht']]]; [left; exact H3 |].
      right. exists t'. split; [right; exact Hin | exact Ht'].
Qed.

Lemma tradesLoop_nothing_new (watermark : Z) (trades : list Trade) :
  Forall (stampedAtMost watermark) trades ->
  forall (newVolume : Q) (latest : Z),
    tradesLoop watermark trades newVolume latest = (newVolume, latest).
Proof.
  induction 1 as [| t trades Ht _ IH]; intros newVolume latest; [reflexivity |].
  cbn [tradesLoop]. unfold stampedAtMost in Ht.
  destruct (trade_timestamp t) as [ts |]; [| apply IH].
  destruct (watermark <? ts)%Z eqn:E; [apply Z.ltb_lt in E; lia | apply IH].
Qed.

Lemma stampedAtMost_weaken (a b : Z) (trades : list Trade) :
  (a <= b)%Z -> Forall (stampedAtMost a) trades -> Forall (stampedAtMost b) trades.
Proof.
  intros Hab H. eapply Forall_impl; [| exact H].
  intros t Ht. unfold stampedAtMost in *.
  destruct (trade_timestamp t); [lia | exact I].
Qed.

(** The strategy an update leaves, given what the exchange answered. *)
Lemma updateTradedVolume_strategy (venue : Venue) (w : World) (trades : list Trade) :
  exchange_fetchMyTrades venue
    (calls w ++ [CallFetchMyTrades (lastTradeTimestamp (strategy w))])
  = Returned (Some trades) ->
  let watermark := JsMath.nullish (lastTradeTimestamp (strategy w)) 0%Z in
  strategy (snd (updateTradedVolume venue w))
  = if Qlt_bool 0 (fst (tradesLoop watermark trades 0 watermark))
    then mkStrategy (currentBuyOrderId (strategy w)) (currentSellOrderId (strategy w))
           (totalTradedBaseVolume (strategy w)
            + fst (tradesLoop watermark trades 0 watermark))
           (Some (snd (tradesLoop watermark trades 0 watermark) + 1)%Z)
    else strategy w.
Proof.
  intros E watermark. subst watermark.
  unfold updateTradedVolume, tryCatch, bind, gets, call, modify, ret.
  cbn [fst snd strategy calls]. rewrite E.
  destruct trades as [| t ts]; [reflexivity |].
  destruct (tradesLoop _ (t :: ts) 0 _) as [newVolume latest]. cbn [fst snd].
  destruct (Qlt_bool 0 newVolume); reflexivity.
Qed.

(** X26. No double counting: when the exchange reports the same trades to
    two updates in a row, the second update changes nothing. *)
Theorem replayed_trades_are_not_counted_twice :
  forall (venue : Venue) (w : World) (trades : list Trade),
    let w1 := snd (updateTradedVolume venue w) in
    exchange_fetchMyTrades venue
      (calls w ++ [CallFetchMyTrades (lastTradeTimestamp (strategy w))])
    = Returned (Some trades) ->
    exchange_fetchMyTrades venue
      (calls w1 ++ [CallFetchMyTrades (lastTradeTimestamp (strategy w1))])
    = Returned (Some trades) ->
    strategy (snd (updateTradedVolume venue w1)) = strategy w1.
Proof.
  intros venue w trades w1 E1 E2.
  rewrite (updateTradedVolume_strategy venue w1 trades E2).
  pose proof (updateTradedVolume_strategy venue w trades E1) as H1.
  fold w1 in H1. cbv zeta in H1.
  set (wm := JsMath.nullish (lastTradeTimestamp (strategy w)) 0%Z) in *.
  destruct (tradesLoop_latest wm trades 0 wm (Z.le_refl wm)) as [L1 [L2 _]].
  destruct (Qlt_bool 0 (fst (tradesLoop wm trades 0 wm))) eqn:Epos.
  - assert (L3 : Forall (stampedAtMost (snd (tradesLoop wm trades 0 wm) + 1)) trades).
    { eapply stampedAtMost_weaken; [| exact L2]. lia. }
    rewrite H1. cbn [lastTradeTimestamp JsMath.nullish].
    rewrite (tradesLoop_nothing_new _ trades L3).
    reflexivity.
  - rewrite H1. fold wm. rewrite Epos. reflexivity.
Qed.

Lemma replayed_trades_are_not_counted_twice_witness :
  strategy
    (snd (updateTradedVolume venueWithTrades
            (snd (updateTradedVolume venueWithTrades watermarkAt100))))
  = strategy (snd (updateTradedVolume venueWithTrades watermarkAt100)).
Proof.
  exact (replayed_trades_are_not_counted_twice venueWithTrades watermarkAt100
           [mkTrade (Some 100%Z) 2; mkTrade (Some 101%Z) 3] eq_refl eq_refl).
Defined.

(** X27. The trade watermark never moves back.  An update either leaves
    the total and the watermark as they were, or moves the watermark
    forward to one past the timestamp of a fetched trade; every fetched
    trade is then stamped before the new watermark. *)
Theorem watermark_only_advances :
  forall (venue : Venue) (w : World),
    let s := strategy w in
    let s' := strategy (snd (updateTradedVolume venue w)) in
    let watermark := JsMath.nullish (lastTradeTimestamp s) 0%Z in
    let watermark' := JsMath.nullish (lastTradeTimestamp s') 0%Z in
    (watermark <= watermark')%Z
    /\ (s' = s
        \/ exists fetched latest,
             exchange_fetchMyTrades venue
               (calls w ++ [CallFetchMyTrades (lastTradeTimestamp s)])
             = Returned (Some fetched)
             /\ lastTradeTimestamp s' = Some (latest + 1)%Z
             /\ (watermark < latest)%Z
             /\ Forall (stampedAtMost latest) fetched
             /\ exists t, In t fetched /\ trade_timestamp t = Some latest).
Proof.
  intros venue w s s' watermark watermark'. subst s s' watermark watermark'.
  destruct (exchange_fetchMyTrades venue
              (calls w ++ [CallFetchMyTrades (lastTradeTimestamp (strategy w))]))
    as [[trades |] | error] eqn:E.
  - rewrite (updateTradedVolume_strategy venue w trades E).
    set (wm := JsMath.nullish (lastTradeTimestamp (strategy w)) 0%Z).
    destruct (tradesLoop_latest wm trades 0 wm (Z.le_refl wm)) as [L1 [L2 L3]].
    destruct (Qlt_bool 0 (fst (tradesLoop wm trades 0 wm))) eqn:Epos.
    + assert (Hlt : (wm < snd (tradesLoop wm trades 0 wm))%Z).
      { destruct (Z.eq_dec (snd (tradesLoop wm trades 0 wm)) wm) as [Eq | Ne]; [| lia].
        rewrite Eq in L2.
        rewrite (tradesLoop_nothing_new wm trades L2) in Epos.
        cbn in Epos. discriminate Epos. }
      cbn [lastTradeTimestamp JsMath.nullish]. split; [lia |].
      right. exists trades, (snd (tradesLoop wm trades 0 wm)).
      split; [reflexivity |]. split; [reflexivity |]. split; [exact Hlt |].
      split; [exact L2 |].
      destruct L3 as [L3 | L3]; [lia | exact L3].
    + split; [apply Z.le_refl | left; reflexivity].
  - assert (Es : strategy (snd (updateTradedVolume venue w)) = strategy w).
    { unfold updateTradedVolume, tryCatch, bind, gets, call, modify, ret.
      cbn [fst snd strategy calls]. rewrite E. reflexivity. }
    rewrite Es. split; [apply Z.le_refl | left; reflexivity].
  - assert (Es : strategy (snd (updateTradedVolume venue w)) = strategy w).
    { unfold updateTradedVolume, tryCatch, bind, gets, call, modify, ret.
      cbn [fst snd strategy calls]. rewrite E. reflexivity. }
    rewrite Es. split; [apply Z.le_refl | left; reflexivity].
Qed.

(** ** Position lookup: [fetchPosition] *)

(** X28. [fetchPosition] answers [undefined] without asking the exchange's
    answers on a market that is not a contract market.  A position it
    returns carries the market's own symbol and comes from the list the
    exchange returned (the symbol-specific list, or the full list when that
    query failed and the exchange has [fetchPositions]).  An exchange error
    saying "Position does not exist" or "position risk" is answered with
    [undefined], never thrown; what it throws is an error of the exchange. *)
Theorem fetchPosition_returns_own_symbol :
  forall (api : PositionsApi),
    (market_contract api = false -> fetchPosition api = Returned None)
    /\ (forall p, fetchPosition api = Returned (Some p) ->
          position_symbol p = marketSymbol api
          /\ exists positions,
               fetchedPositions api = Returned (Some positions) /\ In p positions)
    /\ (forall error, fetchPosition api = Thrown error ->
          (instanceOf error ExchangeError
           && (includes (message error) "Position does not exist"
               || includes (message error) "position risk"))%bool = false
          /\ (fetchPositions_symbol api = Thrown error
              \/ fetchPositions_all api = Thrown error))
    /\ (forall positions, fetchPositions_symbol api = Returned positions ->
          fetchedPositions api = Returned positions).
Proof.
  intro api. unfold fetchPosition.
  split; [intros ->; reflexivity |].
  split; [| split].
  - intros p H. destruct (negb (market_contract api)); [discriminate |].
    destruct (fetchedPositions api) as [[[| q qs] |] | error] eqn:E;
      try discriminate.
    + assert (Hf : find (fun p0 => String.eqb (position_symbol p0) (marketSymbol api))
                     (q :: qs) = Some p) by congruence.
      apply find_some in Hf. destruct Hf as [Hin Heq].
      apply String.eqb_eq in Heq. split; [exact Heq |].
      exists (q :: qs). split; [reflexivity | exact Hin].
    + destruct (_ && _)%bool; discriminate.
  - intros error H. destruct (negb (market_contract api)); [discriminate |].
    destruct (fetchedPositions api) as [[[| q qs] |] | error'] eqn:E;
      try discriminate.
    destruct (instanceOf error' ExchangeError
              && (includes (message error') "Position does not exist"
                  || includes (message error') "position risk"))%bool eqn:Ec;
      [discriminate |].
    inversion H. subst error'. split; [exact Ec |].
    unfold fetchedPositions in E.
    destruct (fetchPositions_symbol api) as [ps | fetchError]; [discriminate |].
    destruct (has_fetchPositions api); [right; exact E | left; exact E].
  - intros positions H. unfold fetchedPositions. rewrite H. reflexivity.
Qed.

Lemma fetchPosition_returns_own_symbol_witness :
  fetchPosition
    (mkPositionsApi false "BTC/USDT" true (Thrown (mkError NetworkError "down"))
       (Thrown (mkError NetworkError "down")))
  = Returned None.
Proof.
  apply (fetchPosition_returns_own_symbol
           (mkPositionsApi false "BTC/USDT" true (Thrown (mkError NetworkError "down"))
              (Thrown (mkError NetworkError "down")))).
  reflexivity.
Defined.

(** The symbol-specific query fails, the full list is searched; an error
    that says the position does not exist gives [undefined]. *)
Example fetchPosition_runs :
  fetchPosition
    (mkPositionsApi true "BTC/USDT" true (Thrown (mkError NotSupported "one symbol"))
       (Returned (Some [mkPosition "ETH/USDT" (Some 3); mkPosition "BTC/USDT" (Some 2)])))
  = Returned (Some (mkPosition "BTC/USDT" (Some 2)))
  /\ fetchPosition
       (mkPositionsApi true "BTC/USDT" false
          (Thrown (mkError ExchangeError "Position does not exist"))
          (Returned None))
     = Returned None
  /\ fetchPosition
       (mkPositionsApi true "BTC/USDT" false
          (Thrown (mkError NetworkError "down")) (Returned None))
     = Thrown (mkError NetworkError "down").
Proof. repeat split. Qed.
